(** * One-wire bus: edge decoder, bit transmitter and request path

    A shallow embedding of [src/lib/onewire/onewire.cpp].

    The target is an 8-bit AVR: [unsigned long], [uint32_t] and [int32_t]
    are 32 bits wide, [uint8_t] is 8 bits wide, [int] is 16 bits wide.
    Machine integers are modelled as [Z] with the wrap-around written out.

    The hardware calls of the Arduino core are modelled as follows:
    - [micros()], [millis()] and [digitalRead(pinRX)] are inputs supplied
      by the environment;
    - [digitalWrite], [delayMicroseconds], [noInterrupts()] and
      [interrupts()] are outputs, recorded in order in a trace of events.

    One invocation of the interrupt handler is one atomic transition. *)

From Stdlib Require Import ZArith List Bool Lia.
Import ListNotations.

Local Open Scope Z_scope.

(** ** Machine integers *)

Module Word.

(** Conversion to [uint8_t]. *)
Definition wrap8 (z : Z) : Z := z mod 2 ^ 8.

(** Conversion to [uint32_t] / [unsigned long]. *)
Definition wrap32 (z : Z) : Z := z mod 2 ^ 32.

(** Conversion of a 32-bit pattern to [int32_t] (two's complement). *)
Definition toInt32 (z : Z) : Z :=
  let u := wrap32 z in
  if u <? 2 ^ 31 then u else u - 2 ^ 32.

End Word.

Import Word.

(** ** Timing constants (lines 10-13) *)

Definition bitPeriod : Z := 80.
Definition pulsePeriod : Z := 25.
Definition addressWidth : Z := 4.
Definition dataWidth : Z := 24.

(** ** Bus state *)

(** The file-scope [volatile] globals (lines 15-20). *)
Record Bus := mkBus {
  pinRX : Z;
  pinTX : Z;
  oneWireAddress : Z;
  oneWirePayloadOut : Z;
  oneWirePayloadIn : Z;
  oneWireMessageReceived : bool;
  oneWireListener : bool
}.

(** The [static] locals of [handleOneWireInput] (lines 61-67). *)
Record Decoder := mkDecoder {
  lastEdge : Z;
  bitCount : Z;
  ignoreCount : Z;
  tempData : Z
}.

Record State := mkState {
  bus : Bus;
  dec : Decoder
}.

(** The decoder statics as the C++ runtime initialises them. *)
Definition decoderInit : Decoder := mkDecoder 0 0 0 0.

(** ** Output events *)

Inductive Event :=
| NoInterrupts
| Interrupts
| DigitalWrite (pin : Z) (level : bool)
| DelayMicroseconds (us : Z).

Definition Trace := list Event.

Definition HIGH := true.
Definition LOW := false.

(** ** Bit transmitter (lines 170-186) *)

(** [currentBit] of one loop iteration: [mask = 1L << (i - 1)], converted to
    [uint32_t], and [(mask & data) != 0].  The shift is defined for
    [i <= 32]; the code calls [sendData] with widths 4 and 24. *)
Definition currentBit (data : Z) (i : nat) : bool :=
  let mask := wrap32 (Z.shiftl 1 (Z.of_nat i - 1)) in
  negb (Z.land mask data =? 0).

(** The body of the [for] loop, for [i] counting down to 1. *)
Fixpoint sendBits (tx : Z) (data : Z) (i : nat) : Trace :=
  match i with
  | O => []
  | S j =>
      DigitalWrite tx (currentBit data i)
      :: DelayMicroseconds (bitPeriod - pulsePeriod)
      :: DigitalWrite tx (negb (currentBit data i))
      :: DelayMicroseconds pulsePeriod
      :: sendBits tx data j
  end.

(** [sendData(data, width)], with the global [pinTX] passed as [tx]. *)
Definition sendData (tx : Z) (data : Z) (width : Z) : Trace :=
  NoInterrupts
  :: sendBits tx data (Z.to_nat width)
  ++ [DigitalWrite tx LOW; Interrupts].

(** ** Frame decoder (lines 60-125) *)

Definition withDecoder (s : State) (d : Decoder) : State := mkState (bus s) d.

(** Lines 88-90: sample the line and shift the bit in. *)
Definition shiftIn (reading : bool) (s : State) : State :=
  let d := dec s in
  withDecoder s
    (mkDecoder (lastEdge d)
               (wrap8 (bitCount d + 1))
               (ignoreCount d)
               (wrap32 (Z.shiftl (tempData d) 1 + Z.b2z reading))).

(** Lines 113-117: sign extension of the received pattern; the literal
    [0xFFFFFFFF] is an [unsigned long] and the result is converted to
    [int32_t]. *)
Definition signExtend (p : Z) : Z :=
  if negb (Z.land p (Z.shiftl 1 (dataWidth - 1)) =? 0)
  then toInt32 (Z.lor p (wrap32 (Z.shiftl 4294967295 (dataWidth - 1))))
  else toInt32 p.

(** Lines 93-124: what a completed frame triggers, by role. *)
Definition dispatch (s : State) : State * Trace :=
  let b := bus s in
  let d := dec s in
  if oneWireListener b then
    if bitCount d =? addressWidth then
      if tempData d =? oneWireAddress b then
        (withDecoder s (mkDecoder (lastEdge d) 0 (ignoreCount d) 0),
         sendData (pinTX b) (wrap32 (oneWirePayloadOut b)) dataWidth)
      else
        (withDecoder s (mkDecoder (lastEdge d) 0 dataWidth 0), [])
    else (s, [])
  else
    if bitCount d =? dataWidth then
      (mkState
         (mkBus (pinRX b) (pinTX b) (oneWireAddress b) (oneWirePayloadOut b)
                (signExtend (tempData d)) true (oneWireListener b))
         (mkDecoder (lastEdge d) 0 0 0),
       [])
    else (s, []).

(** Line 63: [delta = present - lastEdge] on [unsigned long]. *)
Definition edgeGap (present : Z) (s : State) : Z :=
  wrap32 (present - lastEdge (dec s)).

(** [handleOneWireInput()]: [present] is what [micros()] returns and
    [reading] what [digitalRead(pinRX)] returns. *)
Definition handleOneWireInput (present : Z) (reading : bool) (s : State)
  : State * Trace :=
  let d := dec s in
  let delta := edgeGap present s in
  if delta <? 3 * pulsePeriod then (s, [])
  else
    if delta >? 2 * bitPeriod then
      (withDecoder s (mkDecoder present 0 0 0), [])
    else
      if negb (ignoreCount d =? 0) then
        (withDecoder s
           (mkDecoder present (bitCount d) (wrap8 (ignoreCount d - 1))
                      (tempData d)),
         [])
      else
        dispatch
          (shiftIn reading
             (withDecoder s
                (mkDecoder present (bitCount d) (ignoreCount d) (tempData d)))).

(** An edge as the handler sees it: the clock value and the line level. *)
Definition Edge := (Z * bool)%type.

(** Successive invocations of the handler, one per edge. *)
Fixpoint runEdges (es : list Edge) (s : State) : State * Trace :=
  match es with
  | [] => (s, [])
  | (present, reading) :: rest =>
      let (s1, out1) := handleOneWireInput present reading s in
      let (s2, out2) := runEdges rest s1 in
      (s2, out1 ++ out2)
  end.

(** Whether an invocation at [present] gets past the three early returns
    (lines 70, 74-79, 82-85) and shifts a bit in. *)
Definition shiftsBit (present : Z) (s : State) : bool :=
  let delta := edgeGap present s in
  negb (delta <? 3 * pulsePeriod)
  && negb (delta >? 2 * bitPeriod)
  && (ignoreCount (dec s) =? 0).

(** How many of the edges get a bit shifted in. *)
Fixpoint acceptedEdges (es : list Edge) (s : State) : nat :=
  match es with
  | [] => O
  | (present, reading) :: rest =>
      ((if shiftsBit present s then 1 else 0)
       + acceptedEdges rest (fst (handleOneWireInput present reading s)))%nat
  end.

(** The state of a node at start-up: any configuration, zeroed statics. *)
Definition initial (b : Bus) : State := mkState b decoderInit.

(** The gap of an edge is neither a glitch nor a timeout. *)
Definition inWindow (present : Z) (s : State) : Prop :=
  3 * pulsePeriod <= edgeGap present s <= 2 * bitPeriod.

(** Every edge of the list lies in the window after its predecessor, the
    first one after the edge at [last]. *)
Fixpoint spacedInWindow (last : Z) (es : list Edge) : Prop :=
  match es with
  | [] => True
  | (t, _) :: rest =>
      3 * pulsePeriod <= wrap32 (t - last) <= 2 * bitPeriod
      /\ spacedInWindow t rest
  end.

(** The time of the last edge of the list, [last] when there is none. *)
Fixpoint lastTime (last : Z) (es : list Edge) : Z :=
  match es with
  | [] => last
  | (t, _) :: rest => lastTime t rest
  end.

(** ** The line between a transmitter and a decoder *)

(** The level changes of pin [tx] that a trace produces, with the time of
    each: [t] is the time at which the trace starts and [level] is what the
    pin drives then.  [delayMicroseconds] advances the time; the other calls
    are taken to be instantaneous.  A write of the level the pin already has
    is no edge. *)
Fixpoint waveform (tx : Z) (t : Z) (level : bool) (tr : Trace)
  : list (Z * bool) :=
  match tr with
  | [] => []
  | DigitalWrite p v :: rest =>
      if p =? tx then
        if eqb v level then waveform tx t level rest
        else (t, v) :: waveform tx t v rest
      else waveform tx t level rest
  | DelayMicroseconds us :: rest => waveform tx (t + us) level rest
  | _ :: rest => waveform tx t level rest
  end.

(** The transmit pin drives the bus transistor ("TX Pin connected to one
    wire transistor", line 26): a high pin pulls the line down ("Pull line
    down ... digitalWrite(pinTX, HIGH)", lines 139-140), so the receive pin
    reads the complement of the transmit pin.  With it the edge in the
    middle of the slot of a 1 is a rising one ("Positive dominant edges are
    for 1", line 163). *)
Definition busLevel (txLevel : bool) : bool := negb txLevel.

(** What the handler of a receiving node is invoked with: [micros()] at the
    edge and the bus level after it. *)
Definition busEdges (tx : Z) (t : Z) (level : bool) (tr : Trace)
  : list Edge :=
  map (fun e => (wrap32 (fst e), busLevel (snd e))) (waveform tx t level tr).

(** ** Controller request path (lines 135-158) *)

(** One evaluation of the loop condition: the edges the interrupt handler
    served since the previous evaluation, and what [millis()] returns. *)
Record Poll := mkPoll {
  isr : list Edge;
  clock : Z
}.

(** The environment of one call: [millis()] at line 147, the evaluations of
    the loop condition, and the edges served between the exit of the loop and
    the test of line 154. *)
Record Env := mkEnv {
  startClock : Z;
  polls : list Poll;
  lastIsr : list Edge
}.

(** Lines 148-150, with [mark] the value of [timeoutMark].  The flag is
    tested first and the clock only when the flag is clear.  The result
    carries the number of iterations of the (empty) loop body.  [None]: the
    polls ran out with the loop still waiting. *)
Fixpoint waitLoop (mark : Z) (ps : list Poll) (s : State)
  : option (State * Trace * nat) :=
  match ps with
  | [] => None
  | p :: rest =>
      let (s1, out1) := runEdges (isr p) s in
      if negb (oneWireMessageReceived (bus s1)) && (clock p <? mark)
      then
        match waitLoop mark rest s1 with
        | Some (s2, out2, n) => Some (s2, out1 ++ out2, S n)
        | None => None
        end
      else Some (s1, out1, O)
  end.

(** What a call leaves behind: the value stored through [destination],
    whether the test of line 154 found the flag set, the state on return,
    the events in order and the number of loop iterations. *)
Record Outcome := mkOutcome {
  destination : Z;
  received : bool;
  final : State;
  output : Trace;
  iterations : nat
}.

Definition clearReceived (s : State) : State :=
  let b := bus s in
  mkState
    (mkBus (pinRX b) (pinTX b) (oneWireAddress b) (oneWirePayloadOut b)
           (oneWirePayloadIn b) false (oneWireListener b))
    (dec s).

(** Line 147: [millis() + 10] as an [unsigned long]. *)
Definition timeoutMark (env : Env) : Z := wrap32 (startClock env + 10).

(** [requestOneWire(targetAdd, destination)]; what is stored through
    [destination] is the [destination] field of the outcome. *)
Definition requestOneWire (targetAdd : Z) (env : Env) (s : State)
  : option Outcome :=
  let tx := pinTX (bus s) in
  let wake :=
    [NoInterrupts; DigitalWrite tx HIGH; DelayMicroseconds pulsePeriod] in
  let address := sendData tx (wrap32 targetAdd) addressWidth in
  match waitLoop (timeoutMark env) (polls env) s with
  | None => None
  | Some (s1, out1, n) =>
      let (s2, out2) := runEdges (lastIsr env) s1 in
      let b := bus s2 in
      let value := if oneWireMessageReceived b then oneWirePayloadIn b else 0 in
      Some (mkOutcome value (oneWireMessageReceived b) (clearReceived s2)
              (wake ++ address ++ out1 ++ out2 ++ [DigitalWrite 13 HIGH])
              n)
  end.

(** The decoder of [s] with [w] bits of pattern [p] shifted in, the last
    one at [present], as the frame test of lines 93-124 finds it. *)
Definition framed (s : State) (present w p : Z) : State :=
  withDecoder s (mkDecoder present w 0 p).

(** Further edges after a step of the decoder, outputs in order. *)
Definition andThen (r : State * Trace) (es : list Edge) : State * Trace :=
  let r' := runEdges es (fst r) in
  (fst r', snd r ++ snd r').

(** ** Invariant of the decoder *)

(** The number of bits that completes a frame for the role of the node. *)
Definition frameLength (b : Bus) : Z :=
  if oneWireListener b then addressWidth else dataWidth.

(** Between two invocations the bit count is below the frame length of the
    role, the shift register holds no more bits than were counted, and the
    ignore count is at most [dataWidth]. *)
Definition decoderInv (s : State) : Prop :=
  0 <= bitCount (dec s) < frameLength (bus s)
  /\ 0 <= tempData (dec s) < 2 ^ bitCount (dec s)
  /\ 0 <= ignoreCount (dec s) <= dataWidth.

(** ** Outgoing payload setter (lines 193-197) *)

(** [setPayload(newPayload)]: the store to [oneWirePayloadOut] between
    [noInterrupts()] and [interrupts()].  The parameter is an [int32_t]. *)
Definition setPayload (newPayload : Z) (s : State) : State * Trace :=
  let b := bus s in
  (mkState
     (mkBus (pinRX b) (pinTX b) (oneWireAddress b) (toInt32 newPayload)
            (oneWirePayloadIn b) (oneWireMessageReceived b)
            (oneWireListener b))
     (dec s),
   [NoInterrupts; Interrupts]).

(** ** Setup (lines 30-47) *)

(** The interrupt registers the ATtiny build writes to. *)
Inductive Register := PCMSK | GIMSK.

(** What [setupOneWire] does to the hardware: [pinMode], the calls that are
    events of the other functions too, [attachInterrupt] on the interrupt
    of a pin (Nano build), and [reg |= mask] (ATtiny build). *)
Inductive SetupEvent :=
| PinMode (pin : Z) (output : bool)
| Core (e : Event)
| AttachInterrupt (pin : Z)
| RegisterOr (reg : Register) (mask : Z).

(** [setupOneWire(RX, TX, address, isListener)].  [nano] tells which branch
    of [#ifdef ARD_NANO] is compiled; [PCIE] is the bit number that
    [avr/io.h] defines.  [RX], [TX] and [address] are [uint8_t] parameters;
    the calls that follow read the globals they were stored in.  The
    statics of the handler are not touched. *)
Definition setupOneWire (nano : bool) (PCIE : Z)
  (RX TX address : Z) (isListener : bool) (s : State)
  : State * list SetupEvent :=
  let b := bus s in
  let rx := wrap8 RX in
  let tx := wrap8 TX in
  (mkState
     (mkBus rx tx (wrap8 address) (oneWirePayloadOut b) (oneWirePayloadIn b)
            (oneWireMessageReceived b) isListener)
     (dec s),
   [PinMode rx false; PinMode tx true; Core (DigitalWrite tx LOW)]
   ++ (if nano then [AttachInterrupt rx]
       else [Core NoInterrupts;
             RegisterOr PCMSK (Z.shiftl 1 rx);
             RegisterOr GIMSK (Z.shiftl 1 PCIE);
             Core Interrupts])).

(** ** Points of observation of the request path *)

(** The edges the handler has served when the loop condition is evaluated
    for the [k]-th time. *)
Definition servedEdges (env : Env) (k : nat) : list Edge :=
  concat (map isr (firstn k (polls env))).

(** The state in which the loop condition reads the flag in iteration [k],
    counted from 0. *)
Definition atFlagRead (env : Env) (s : State) (k : nat) : State :=
  fst (runEdges (servedEdges env (S k)) s).

(** The state in which line 154 tests the flag, after a loop of [n]
    iterations. *)
Definition atDelivery (env : Env) (s : State) (n : nat) : State :=
  fst (runEdges (lastIsr env) (atFlagRead env s n)).

(** ** Measures on traces *)

(** The time a trace spends in [delayMicroseconds]. *)
Fixpoint duration (tr : Trace) : Z :=
  match tr with
  | [] => 0
  | DelayMicroseconds us :: rest => us + duration rest
  | _ :: rest => duration rest
  end.

(** Whether interrupts are enabled after a trace, given whether they were
    before it. *)
Fixpoint interruptsAfter (enabled : bool) (tr : Trace) : bool :=
  match tr with
  | [] => enabled
  | NoInterrupts :: rest => interruptsAfter false rest
  | Interrupts :: rest => interruptsAfter true rest
  | _ :: rest => interruptsAfter enabled rest
  end.

(** The number that a sequence of sampled levels spells, first level most
    significant, continuing from [acc]. *)
Fixpoint bitsValue (acc : Z) (bits : list bool) : Z :=
  match bits with
  | [] => acc
  | b :: rest => bitsValue (2 * acc + Z.b2z b) rest
  end.

(** What a 24-bit two's-complement field holding the low bits of [v]
    reads as. *)
Definition signed24 (v : Z) : Z := (v + 2 ^ 23) mod 2 ^ 24 - 2 ^ 23.

(** * Properties *)

(** ** Arithmetic of the machine words *)

Section WordFacts.

Lemma wrap32_small (z : Z) : 0 <= z < 2 ^ 32 -> wrap32 z = z.
Proof. intros H. unfold wrap32. apply Z.mod_small. exact H. Qed.

Lemma wrap8_small (z : Z) : 0 <= z < 2 ^ 8 -> wrap8 z = z.
Proof. intros H. unfold wrap8. apply Z.mod_small. exact H. Qed.

Lemma wrap32_range (z : Z) : 0 <= wrap32 z < 2 ^ 32.
Proof. unfold wrap32. apply Z.mod_pos_bound. reflexivity. Qed.

(** Two clock values taken [a] and [b] microseconds after a common origin
    are [a - b] apart, whatever the counter overflowed in between. *)
Lemma wrap32_gap (t a b : Z) :
  wrap32 (wrap32 (t + a) - wrap32 (t + b)) = wrap32 (a - b).
Proof.
  unfold wrap32. rewrite <- Zminus_mod. f_equal. ring.
Qed.

Lemma testbit_above (p k n : Z) :
  0 <= k -> 0 <= p < 2 ^ k -> k <= n -> Z.testbit p n = false.
Proof.
  intros Hk Hp Hn.
  rewrite <- (Z.mod_small p (2 ^ k)) by exact Hp.
  apply Z.mod_pow2_bits_high. lia.
Qed.

(** Masking with a single bit. *)
Lemma land_bit (p k : Z) :
  0 <= k ->
  Z.land p (Z.shiftl 1 k) = if Z.testbit p k then 2 ^ k else 0.
Proof.
  intros Hk. rewrite Z.shiftl_1_l.
  apply Z.bits_inj'. intros n Hn.
  rewrite Z.land_spec, Z.pow2_bits_eqb by exact Hk.
  destruct (Z.eqb_spec k n) as [->|Hne].
  - destruct (Z.testbit p n) eqn:E.
    + rewrite Z.pow2_bits_true by exact Hn. reflexivity.
    + rewrite Z.bits_0. reflexivity.
  - rewrite andb_false_r.
    destruct (Z.testbit p k).
    + rewrite Z.pow2_bits_false by exact Hne. reflexivity.
    + rewrite Z.bits_0. reflexivity.
Qed.

Lemma pow2_pos (k : Z) : 0 <= k -> 0 < 2 ^ k.
Proof. intros. apply Z.pow_pos_nonneg; lia. Qed.

Lemma testbit_top (p k : Z) :
  0 <= k -> 0 <= p < 2 ^ (k + 1) ->
  Z.testbit p k = (2 ^ k <=? p).
Proof.
  intros Hk Hp.
  destruct (Z.leb_spec (2 ^ k) p) as [Hge|Hlt].
  - apply Z.testbit_true; [exact Hk|].
    rewrite Z.pow_add_r in Hp by lia. change (2 ^ 1) with 2 in Hp.
    pose proof (pow2_pos k Hk) as Hpos.
    assert (p / 2 ^ k = 1) as ->; [|reflexivity].
    symmetry. apply (Z.div_unique p (2 ^ k) 1 (p - 2 ^ k)); lia.
  - apply (testbit_above p k k); lia.
Qed.

End WordFacts.

(** ** Sign extension *)

(** The bits the code sets when the top bit of the field is set. *)
Lemma lor_high_bits (p : Z) :
  2 ^ 23 <= p < 2 ^ 24 ->
  Z.lor p 4286578688 = p + 4278190080.
Proof.
  intros Hp.
  pose proof (Zbitwise.Z.add_lor_land p 4286578688) as Hadd.
  assert (Z.land p 4286578688 = 2 ^ 23) as Hland; [|lia].
  apply Z.bits_inj'. intros n Hn.
  rewrite Z.land_spec, Z.pow2_bits_eqb by lia.
  change 4286578688 with (Z.shiftl (Z.ones 9) 23).
  rewrite Z.shiftl_spec by exact Hn.
  destruct (Z.eqb_spec 23 n) as [<-|Hne].
  - rewrite (testbit_top p 23) by lia.
    destruct (Z.leb_spec (2 ^ 23) p); [reflexivity|lia].
  - destruct (Z_lt_le_dec n 23) as [Hlo|Hhi].
    + rewrite (Z.testbit_neg_r _ (n - 23)) by lia.
      apply andb_false_r.
    + rewrite (testbit_above p 24 n) by lia. reflexivity.
Qed.

(** What lines 113-117 compute on a [dataWidth]-bit pattern. *)
Lemma signExtend_spec (p : Z) :
  0 <= p < 2 ^ dataWidth ->
  signExtend p = if Z.testbit p (dataWidth - 1) then p - 2 ^ dataWidth else p.
Proof.
  unfold dataWidth. intros Hp. unfold signExtend, dataWidth.
  change (24 - 1) with 23.
  rewrite land_bit by lia.
  rewrite (testbit_top p 23) by (change (23 + 1) with 24; lia).
  change (wrap32 (Z.shiftl 4294967295 23)) with 4286578688.
  destruct (Z.leb_spec (2 ^ 23) p) as [Hge|Hlt].
  - change (2 ^ 23 =? 0) with false. cbn [negb].
    rewrite lor_high_bits by lia.
    unfold toInt32. rewrite wrap32_small by lia.
    destruct (Z.ltb_spec (p + 4278190080) (2 ^ 31)); lia.
  - rewrite Z.eqb_refl. cbn [negb].
    unfold toInt32. rewrite wrap32_small by lia.
    destruct (Z.ltb_spec p (2 ^ 31)); lia.
Qed.

(** ** The three timing classes of an edge *)

Section EdgeClasses.

Variables (present : Z) (reading : bool) (s : State).

Lemma handle_glitch :
  edgeGap present s < 3 * pulsePeriod ->
  handleOneWireInput present reading s = (s, []).
Proof.
  intros H. unfold handleOneWireInput.
  destruct (Z.ltb_spec (edgeGap present s) (3 * pulsePeriod)) as [_|Hge];
    [reflexivity|lia].
Qed.

Lemma handle_timeout :
  2 * bitPeriod < edgeGap present s ->
  handleOneWireInput present reading s
  = (withDecoder s (mkDecoder present 0 0 0), []).
Proof.
  intros H. unfold handleOneWireInput.
  assert (3 * pulsePeriod <= edgeGap present s) as H3
      by (unfold pulsePeriod, bitPeriod in *; lia).
  destruct (Z.ltb_spec (edgeGap present s) (3 * pulsePeriod)) as [Hlt|_];
    [lia|].
  destruct (Z.gtb_spec (edgeGap present s) (2 * bitPeriod)) as [_|Hle];
    [reflexivity|lia].
Qed.

Lemma handle_ignored :
  inWindow present s ->
  ignoreCount (dec s) <> 0 ->
  handleOneWireInput present reading s
  = (withDecoder s
       (mkDecoder present (bitCount (dec s))
                  (wrap8 (ignoreCount (dec s) - 1)) (tempData (dec s))),
     []).
Proof.
  intros [Hlo Hhi] Hign. unfold handleOneWireInput.
  destruct (Z.ltb_spec (edgeGap present s) (3 * pulsePeriod)) as [Hlt|_];
    [lia|].
  destruct (Z.gtb_spec (edgeGap present s) (2 * bitPeriod)) as [Hgt|_];
    [lia|].
  destruct (Z.eqb_spec (ignoreCount (dec s)) 0) as [E|_];
    [contradiction|reflexivity].
Qed.

Lemma handle_bit :
  inWindow present s ->
  ignoreCount (dec s) = 0 ->
  handleOneWireInput present reading s
  = dispatch
      (shiftIn reading
         (withDecoder s
            (mkDecoder present (bitCount (dec s)) (ignoreCount (dec s))
                       (tempData (dec s))))).
Proof.
  intros [Hlo Hhi] Hign. unfold handleOneWireInput.
  destruct (Z.ltb_spec (edgeGap present s) (3 * pulsePeriod)) as [Hlt|_];
    [lia|].
  destruct (Z.gtb_spec (edgeGap present s) (2 * bitPeriod)) as [Hgt|_];
    [lia|].
  rewrite Hign. reflexivity.
Qed.

End EdgeClasses.

(** ** Glitch rejection *)

(** C6. An edge whose gap is below [3 * pulsePeriod] leaves the whole state
    as it was, the timestamp of the last edge included, and transmits
    nothing; so does any sequence of edges that all come less than
    [3 * pulsePeriod] after the last accepted one. *)
Theorem glitch_edges_change_nothing (s : State) (es : list Edge)
  (Hgap : Forall (fun e => edgeGap (fst e) s < 3 * pulsePeriod) es) :
  (forall e, In e es -> handleOneWireInput (fst e) (snd e) s = (s, []))
  /\ runEdges es s = (s, []).
Proof.
  split.
  - intros e Hin. rewrite Forall_forall in Hgap.
    apply handle_glitch, Hgap, Hin.
  - induction Hgap as [|[t r] rest Hhd _ IH]; [reflexivity|].
    cbn [runEdges]. cbn [fst] in Hhd.
    rewrite (handle_glitch t r s Hhd), IH. reflexivity.
Qed.

Lemma glitch_edges_change_nothing_witness :
  let s := mkState (mkBus 2 3 5 (-100) 0 false true) (mkDecoder 1000 2 0 3) in
  runEdges [(1025, true); (1055, false); (1074, true)] s = (s, []).
Proof.
  intros s.
  apply (glitch_edges_change_nothing s [(1025, true); (1055, false); (1074, true)]).
  repeat constructor.
Defined.

(** ** Frame timeout *)

(** C5. An edge whose gap is at least [3 * pulsePeriod] and above
    [2 * bitPeriod] zeroes the bit count, the ignore count and the shift
    register, records the current time as the last edge, shifts no bit in,
    transmits nothing and leaves the rest of the state alone. *)
Theorem late_edge_resets_decoder (s : State) (present : Z) (reading : bool)
  (Hglitch : 3 * pulsePeriod <= edgeGap present s)
  (Hlate : 2 * bitPeriod < edgeGap present s) :
  handleOneWireInput present reading s
  = (mkState (bus s) (mkDecoder present 0 0 0), []).
Proof.
  apply handle_timeout. exact Hlate.
Qed.

Lemma late_edge_resets_decoder_witness :
  handleOneWireInput 5000 true
    (mkState (mkBus 2 3 5 (-100) 7 true true) (mkDecoder 1000 3 9 6))
  = (mkState (mkBus 2 3 5 (-100) 7 true true) (mkDecoder 5000 0 0 0), []).
Proof.
  apply (late_edge_resets_decoder
           (mkState (mkBus 2 3 5 (-100) 7 true true) (mkDecoder 1000 3 9 6))
           5000 true).
  - vm_compute. discriminate.
  - vm_compute. reflexivity.
Defined.

(** ** Frame completion *)

(** C2. On a listener, the accepted edge that brings the bit count to
    [addressWidth]: when the accumulated pattern equals the node's address
    the handler transmits the outgoing payload as a [dataWidth]-bit frame
    and leaves the ignore count at zero; otherwise it transmits nothing and
    sets the ignore count to [dataWidth].  Either way the bit count and the
    shift register are zero when the handler returns. *)
Theorem listener_address_dispatch (s : State) (present : Z) (reading : bool)
  (Hrole : oneWireListener (bus s) = true)
  (Hwin : inWindow present s)
  (Hign : ignoreCount (dec s) = 0)
  (Hcount : wrap8 (bitCount (dec s) + 1) = addressWidth) :
  let p := wrap32 (Z.shiftl (tempData (dec s)) 1 + Z.b2z reading) in
  let r := handleOneWireInput present reading s in
  (p = oneWireAddress (bus s) ->
     snd r = sendData (pinTX (bus s)) (wrap32 (oneWirePayloadOut (bus s)))
                      dataWidth
     /\ ignoreCount (dec (fst r)) = 0)
  /\ (p <> oneWireAddress (bus s) ->
        snd r = [] /\ ignoreCount (dec (fst r)) = dataWidth)
  /\ bitCount (dec (fst r)) = 0
  /\ tempData (dec (fst r)) = 0
  /\ lastEdge (dec (fst r)) = present
  /\ bus (fst r) = bus s.
Proof.
  intros p r. subst r.
  rewrite (handle_bit present reading s Hwin Hign).
  unfold dispatch, shiftIn, withDecoder.
  cbn [bus dec bitCount tempData lastEdge ignoreCount].
  rewrite Hrole, Hcount, Z.eqb_refl. fold p.
  destruct (Z.eqb_spec p (oneWireAddress (bus s))) as [E|N];
    cbn [fst snd bus dec bitCount tempData lastEdge ignoreCount];
    repeat split; try reflexivity; try (intros; contradiction);
    try (intros; assumption).
Qed.

Lemma listener_address_dispatch_witness :
  let s := mkState (mkBus 2 3 5 (-100) 0 false true) (mkDecoder 1000 3 0 2) in
  let hit := handleOneWireInput 1080 true s in
  let miss := handleOneWireInput 1080 false s in
  (snd hit = sendData 3 4294967196 24 /\ ignoreCount (dec (fst hit)) = 0)
  /\ (snd miss = [] /\ ignoreCount (dec (fst miss)) = dataWidth)
  /\ bitCount (dec (fst hit)) = 0 /\ tempData (dec (fst hit)) = 0
  /\ bitCount (dec (fst miss)) = 0 /\ tempData (dec (fst miss)) = 0.
Proof.
  intros s hit miss.
  assert (Hw : inWindow 1080 s) by (vm_compute; split; discriminate).
  destruct (listener_address_dispatch s 1080 true eq_refl Hw eq_refl eq_refl)
    as (Hmatch & _ & Hbit & Htemp & _).
  destruct (listener_address_dispatch s 1080 false eq_refl Hw eq_refl eq_refl)
    as (_ & Hmiss & Hbit' & Htemp' & _).
  repeat split;
    try (apply Hmatch; reflexivity);
    try (apply Hmiss; vm_compute; discriminate);
    assumption.
Defined.

(** C3. On a controller, the accepted edge that brings the bit count to
    [dataWidth], with [p] the [dataWidth]-bit pattern accumulated: the
    handler stores [p - 2 ^ dataWidth] into the incoming payload when bit
    [dataWidth - 1] of [p] is set and [p] itself otherwise, raises the
    received flag, and zeroes the bit count, the ignore count and the shift
    register. *)
Theorem controller_data_dispatch (s : State) (present : Z) (reading : bool)
  (Hrole : oneWireListener (bus s) = false)
  (Hwin : inWindow present s)
  (Hign : ignoreCount (dec s) = 0)
  (Hcount : wrap8 (bitCount (dec s) + 1) = dataWidth)
  (Hfield : wrap32 (Z.shiftl (tempData (dec s)) 1 + Z.b2z reading)
            < 2 ^ dataWidth) :
  let p := wrap32 (Z.shiftl (tempData (dec s)) 1 + Z.b2z reading) in
  let r := handleOneWireInput present reading s in
  oneWirePayloadIn (bus (fst r))
  = (if Z.testbit p (dataWidth - 1) then p - 2 ^ dataWidth else p)
  /\ oneWireMessageReceived (bus (fst r)) = true
  /\ bitCount (dec (fst r)) = 0
  /\ ignoreCount (dec (fst r)) = 0
  /\ tempData (dec (fst r)) = 0
  /\ lastEdge (dec (fst r)) = present
  /\ snd r = [].
Proof.
  intros p r. subst r.
  rewrite (handle_bit present reading s Hwin Hign).
  unfold dispatch, shiftIn, withDecoder.
  cbn [bus dec bitCount tempData lastEdge ignoreCount].
  rewrite Hrole, Hcount, Z.eqb_refl. fold p.
  cbn [fst snd bus dec bitCount tempData lastEdge ignoreCount
       oneWirePayloadIn oneWireMessageReceived].
  repeat split.
  apply signExtend_spec. split; [apply wrap32_range|exact Hfield].
Qed.

Lemma controller_data_dispatch_witness :
  let s := mkState (mkBus 2 3 0 0 0 false false)
                   (mkDecoder 1000 23 0 8388558) in
  let r := handleOneWireInput 1080 false s in
  oneWirePayloadIn (bus (fst r)) = -100
  /\ oneWireMessageReceived (bus (fst r)) = true
  /\ bitCount (dec (fst r)) = 0
  /\ ignoreCount (dec (fst r)) = 0
  /\ tempData (dec (fst r)) = 0
  /\ lastEdge (dec (fst r)) = 1080
  /\ snd r = [].
Proof.
  intros s.
  assert (Hw : inWindow 1080 s) by (vm_compute; split; discriminate).
  exact (controller_data_dispatch s 1080 false
           eq_refl Hw eq_refl eq_refl eq_refl).
Defined.

(** ** Collision suppression *)

Lemma runEdges_app (es1 es2 : list Edge) (s : State) :
  runEdges (es1 ++ es2) s
  = (fst (runEdges es2 (fst (runEdges es1 s))),
     snd (runEdges es1 s) ++ snd (runEdges es2 (fst (runEdges es1 s)))).
Proof.
  revert s. induction es1 as [|[t r] rest IH]; intros s.
  - cbn [app runEdges fst snd]. destruct (runEdges es2 s). reflexivity.
  - cbn [app runEdges].
    destruct (handleOneWireInput t r s) as [s1 out1].
    rewrite IH. cbn [fst snd].
    destruct (runEdges rest s1) as [s2 out2]. cbn [fst snd].
    rewrite app_assoc. reflexivity.
Qed.

Lemma spacedInWindow_app (last : Z) (es1 es2 : list Edge) :
  spacedInWindow last (es1 ++ es2)
  <-> spacedInWindow last es1 /\ spacedInWindow (lastTime last es1) es2.
Proof.
  revert last. induction es1 as [|[t r] rest IH]; intros last.
  - cbn [app spacedInWindow lastTime]. tauto.
  - cbn [app spacedInWindow lastTime]. rewrite IH. tauto.
Qed.

(** While the ignore count lasts, edges in the window only consume it. *)
Lemma ignored_edges_run (es : list Edge) :
  forall s,
    0 <= ignoreCount (dec s) < 2 ^ 8 ->
    Z.of_nat (length es) <= ignoreCount (dec s) ->
    spacedInWindow (lastEdge (dec s)) es ->
    runEdges es s
    = (withDecoder s
         (mkDecoder (lastTime (lastEdge (dec s)) es)
                    (bitCount (dec s))
                    (ignoreCount (dec s) - Z.of_nat (length es))
                    (tempData (dec s))),
       []).
Proof.
  induction es as [|[t r] rest IH]; intros s Hrange Hlen Hsp.
  - cbn [runEdges lastTime length Z.of_nat]. rewrite Z.sub_0_r.
    destruct s as [b [l c i d]]. reflexivity.
  - cbn [length] in Hlen. rewrite Nat2Z.inj_succ in Hlen.
    destruct Hsp as [Hwin Hrest].
    cbn [runEdges lastTime].
    rewrite handle_ignored by (first [exact Hwin | lia]).
    rewrite IH; cbn [withDecoder dec bus lastEdge ignoreCount bitCount tempData].
    + cbn [length]. rewrite Nat2Z.inj_succ.
      rewrite wrap8_small by lia.
      unfold withDecoder. cbn [bus app].
      replace (ignoreCount (dec s) - 1 - Z.of_nat (length rest))
        with (ignoreCount (dec s) - Z.succ (Z.of_nat (length rest))) by lia.
      reflexivity.
    + rewrite wrap8_small by lia. lia.
    + rewrite wrap8_small by lia. lia.
    + exact Hrest.
Qed.

(** From a listener that ignores [dataWidth] edges, with bit count and
    shift register zero. *)
Lemma discard_run (s : State) (es : list Edge) (e : Edge) :
  oneWireListener (bus s) = true ->
  ignoreCount (dec s) = dataWidth ->
  bitCount (dec s) = 0 ->
  tempData (dec s) = 0 ->
  Z.of_nat (length es) <= dataWidth ->
  spacedInWindow (lastEdge (dec s)) (es ++ [e]) ->
  runEdges es s
  = (mkState (bus s)
       (mkDecoder (lastTime (lastEdge (dec s)) es) 0
                  (dataWidth - Z.of_nat (length es)) 0),
     [])
  /\ (Z.of_nat (length es) = dataWidth ->
      runEdges (es ++ [e]) s
      = (mkState (bus s) (mkDecoder (fst e) 1 0 (Z.b2z (snd e))), [])).
Proof.
  intros Hrole Hign Hbits Htemp Hlen Hsp.
  apply spacedInWindow_app in Hsp. destruct Hsp as [Hes He].
  assert (Hrun : runEdges es s
                 = (mkState (bus s)
                      (mkDecoder (lastTime (lastEdge (dec s)) es) 0
                                 (dataWidth - Z.of_nat (length es)) 0),
                    [])).
  { rewrite ignored_edges_run; unfold dataWidth in *; try lia; try assumption.
    unfold withDecoder. rewrite Hbits, Htemp, Hign. reflexivity. }
  split; [exact Hrun|].
  intros Hfull. rewrite runEdges_app, Hrun. cbn [fst snd app].
  destruct e as [t r]. cbn [spacedInWindow] in He. destruct He as [Hwin _].
  cbn [runEdges fst snd].
  rewrite handle_bit;
    [|unfold inWindow, edgeGap; cbn [dec lastEdge]; exact Hwin
     |cbn [dec ignoreCount]; lia].
  unfold dispatch, shiftIn, withDecoder.
  cbn [bus dec bitCount tempData lastEdge ignoreCount].
  rewrite Hrole, Hfull, Z.sub_diag.
  change (wrap8 (0 + 1) =? addressWidth) with false. cbn iota.
  rewrite Z.shiftl_0_l, Z.add_0_l.
  rewrite wrap32_small by (destruct r; cbn; lia).
  reflexivity.
Qed.

(** What the edge that completes a mismatching address leaves behind. *)
Lemma listener_mismatch (s : State) (present : Z) (reading : bool) :
  oneWireListener (bus s) = true ->
  inWindow present s ->
  ignoreCount (dec s) = 0 ->
  wrap8 (bitCount (dec s) + 1) = addressWidth ->
  wrap32 (Z.shiftl (tempData (dec s)) 1 + Z.b2z reading)
  <> oneWireAddress (bus s) ->
  handleOneWireInput present reading s
  = (mkState (bus s) (mkDecoder present 0 dataWidth 0), []).
Proof.
  intros Hrole Hwin Hign Hcount Hmiss.
  rewrite (handle_bit present reading s Hwin Hign).
  unfold dispatch, shiftIn, withDecoder.
  cbn [bus dec bitCount tempData lastEdge ignoreCount].
  rewrite Hrole, Hcount, Z.eqb_refl.
  destruct (Z.eqb_spec
              (wrap32 (Z.shiftl (tempData (dec s)) 1 + Z.b2z reading))
              (oneWireAddress (bus s))); [contradiction|reflexivity].
Qed.

(** C7. The accepted edge that completes a mismatching address on a
    listener leaves the ignore count at [dataWidth] and the bit count and
    shift register at zero.  Of the edges that follow in the window
    [[3 * pulsePeriod, 2 * bitPeriod]], the first [dataWidth] are discarded:
    each lowers the ignore count by one and touches neither the shift
    register nor the bit count.  The next edge in the window is shifted in
    as the first bit of a new address frame. *)
Theorem mismatch_discards_dataWidth_edges
  (s : State) (present : Z) (reading : bool) (es : list Edge) (e : Edge)
  (Hrole : oneWireListener (bus s) = true)
  (Hwin : inWindow present s)
  (Hign : ignoreCount (dec s) = 0)
  (Hcount : wrap8 (bitCount (dec s) + 1) = addressWidth)
  (Hmiss : wrap32 (Z.shiftl (tempData (dec s)) 1 + Z.b2z reading)
           <> oneWireAddress (bus s))
  (Hlen : Z.of_nat (length es) <= dataWidth)
  (Hsp : spacedInWindow present (es ++ [e])) :
  let missed := fst (handleOneWireInput present reading s) in
  missed = mkState (bus s) (mkDecoder present 0 dataWidth 0)
  /\ runEdges es missed
     = (mkState (bus s)
          (mkDecoder (lastTime present es) 0
                     (dataWidth - Z.of_nat (length es)) 0),
        [])
  /\ (Z.of_nat (length es) = dataWidth ->
      runEdges (es ++ [e]) missed
      = (mkState (bus s) (mkDecoder (fst e) 1 0 (Z.b2z (snd e))), [])).
Proof.
  intros missed. subst missed.
  rewrite (listener_mismatch s present reading Hrole Hwin Hign Hcount Hmiss).
  cbn [fst]. split; [reflexivity|].
  apply (discard_run (mkState (bus s) (mkDecoder present 0 dataWidth 0)) es e);
    try reflexivity; assumption.
Qed.

Lemma mismatch_discards_dataWidth_edges_witness :
  runEdges
    (map (fun k => (1080 + 80 * Z.of_nat k, true)) (seq 1 24))
    (fst (handleOneWireInput 1080 false
            (mkState (mkBus 2 3 5 (-100) 0 false true)
                     (mkDecoder 1000 3 0 2))))
  = (mkState (mkBus 2 3 5 (-100) 0 false true) (mkDecoder 3000 0 0 0), [])
  /\ runEdges
       (map (fun k => (1080 + 80 * Z.of_nat k, true)) (seq 1 24)
        ++ [(3080, true)])
       (fst (handleOneWireInput 1080 false
               (mkState (mkBus 2 3 5 (-100) 0 false true)
                        (mkDecoder 1000 3 0 2))))
     = (mkState (mkBus 2 3 5 (-100) 0 false true) (mkDecoder 3080 1 0 1), []).
Proof.
  pose (s := mkState (mkBus 2 3 5 (-100) 0 false true) (mkDecoder 1000 3 0 2)).
  pose (es := map (fun k => (1080 + 80 * Z.of_nat k, true)) (seq 1 24)).
  assert (Hwin : inWindow 1080 s) by (vm_compute; split; discriminate).
  assert (Hmiss : wrap32 (Z.shiftl (tempData (dec s)) 1 + Z.b2z false)
                  <> oneWireAddress (bus s))
    by (vm_compute; discriminate).
  assert (Hlen : Z.of_nat (length es) <= dataWidth)
    by (vm_compute; discriminate).
  assert (Hsp : spacedInWindow 1080 (es ++ [(3080, true)]))
    by (vm_compute; repeat split; discriminate).
  destruct (mismatch_discards_dataWidth_edges s 1080 false es (3080, true)
              eq_refl Hwin eq_refl eq_refl Hmiss Hlen Hsp)
    as (_ & Hrun & Hnext).
  split; [exact Hrun|apply Hnext; reflexivity].
Defined.

(** ** Invariant *)

Lemma shifted_range (d c : Z) (reading : bool) :
  0 <= c < 24 -> 0 <= d < 2 ^ c ->
  wrap32 (Z.shiftl d 1 + Z.b2z reading) = 2 * d + Z.b2z reading
  /\ 0 <= 2 * d + Z.b2z reading < 2 ^ (c + 1)
  /\ 2 ^ (c + 1) <= 2 ^ 24.
Proof.
  intros Hc Hd.
  assert (Hpow : 2 ^ (c + 1) = 2 * 2 ^ c)
    by (rewrite Z.pow_add_r by lia; change (2 ^ 1) with 2; ring).
  assert (Hle : 2 ^ (c + 1) <= 2 ^ 24)
    by (apply Z.pow_le_mono_r; lia).
  assert (Hb : 0 <= Z.b2z reading <= 1) by (destruct reading; cbn; lia).
  rewrite Z.shiftl_mul_pow2 by lia. change (2 ^ 1) with 2.
  rewrite wrap32_small by lia.
  repeat split; lia.
Qed.

Lemma frameLength_bound (b : Bus) : 0 < frameLength b <= dataWidth.
Proof.
  unfold frameLength, addressWidth, dataWidth.
  destruct (oneWireListener b); lia.
Qed.

Lemma handle_keeps_role (present : Z) (reading : bool) (s : State) :
  oneWireListener (bus (fst (handleOneWireInput present reading s)))
  = oneWireListener (bus s).
Proof.
  unfold handleOneWireInput.
  destruct (edgeGap present s <? 3 * pulsePeriod); [reflexivity|].
  destruct (edgeGap present s >? 2 * bitPeriod); [reflexivity|].
  destruct (negb (ignoreCount (dec s) =? 0)); [reflexivity|].
  unfold dispatch, shiftIn, withDecoder.
  cbn [bus dec bitCount tempData ignoreCount lastEdge].
  destruct (oneWireListener (bus s)) eqn:Hrole;
    repeat match goal with
           | |- context [if ?c then _ else _] => destruct c
           end; cbn [fst bus oneWireListener]; auto.
Qed.

Lemma handle_preserves_inv (present : Z) (reading : bool) (s : State) :
  decoderInv s -> decoderInv (fst (handleOneWireInput present reading s)).
Proof.
  intros (Hbits & Htemp & Hign).
  pose proof (frameLength_bound (bus s)) as Hfl.
  unfold dataWidth in *.
  unfold handleOneWireInput.
  destruct (edgeGap present s <? 3 * pulsePeriod);
    [cbn [fst]; unfold decoderInv, dataWidth; auto|].
  destruct (edgeGap present s >? 2 * bitPeriod).
  { cbn [fst]. unfold decoderInv, withDecoder, dataWidth.
    cbn [bus dec bitCount tempData ignoreCount].
    change (2 ^ 0) with 1. lia. }
  destruct (Z.eqb_spec (ignoreCount (dec s)) 0) as [Hz|Hnz]; cbn [negb].
  2:{ cbn [fst]. unfold decoderInv, withDecoder, dataWidth.
      cbn [bus dec bitCount tempData ignoreCount].
      rewrite wrap8_small by lia. lia. }
  destruct (shifted_range (tempData (dec s)) (bitCount (dec s)) reading)
    as (Hsh & Hrng & Hle); [lia|exact Htemp|].
  unfold dispatch, shiftIn, withDecoder.
  cbn [bus dec bitCount tempData ignoreCount lastEdge].
  rewrite Hsh, wrap8_small by lia.
  unfold frameLength, addressWidth, dataWidth in *.
  destruct (oneWireListener (bus s)) eqn:Hrole.
  - destruct (Z.eqb_spec (bitCount (dec s) + 1) 4) as [E|N].
    + destruct (_ =? oneWireAddress (bus s)); cbn [fst];
        unfold decoderInv, frameLength, dataWidth, addressWidth;
        cbn [bus dec bitCount tempData ignoreCount]; rewrite Hrole;
        change (2 ^ 0) with 1; lia.
    + cbn [fst]. unfold decoderInv, frameLength, dataWidth, addressWidth.
      cbn [bus dec bitCount tempData ignoreCount]. rewrite Hrole. lia.
  - destruct (Z.eqb_spec (bitCount (dec s) + 1) 24) as [E|N].
    + cbn [fst]. unfold decoderInv, frameLength, dataWidth, addressWidth.
      cbn [bus dec bitCount tempData ignoreCount oneWireListener].
      change (2 ^ 0) with 1. lia.
    + cbn [fst]. unfold decoderInv, frameLength, dataWidth, addressWidth.
      cbn [bus dec bitCount tempData ignoreCount]. rewrite Hrole. lia.
Qed.

Lemma initial_inv (b : Bus) : decoderInv (initial b).
Proof.
  pose proof (frameLength_bound b).
  unfold decoderInv, initial, decoderInit, dataWidth in *.
  cbn [bus dec bitCount tempData ignoreCount]. change (2 ^ 0) with 1. lia.
Qed.

Lemma runEdges_cons (t : Z) (r : bool) (rest : list Edge) (s : State) :
  fst (runEdges ((t, r) :: rest) s)
  = fst (runEdges rest (fst (handleOneWireInput t r s))).
Proof.
  cbn [runEdges]. destruct (handleOneWireInput t r s) as [s1 o1].
  cbn [fst]. destruct (runEdges rest s1). reflexivity.
Qed.

Lemma runEdges_inv (es : list Edge) :
  forall s,
    decoderInv s ->
    decoderInv (fst (runEdges es s))
    /\ oneWireListener (bus (fst (runEdges es s))) = oneWireListener (bus s).
Proof.
  induction es as [|[t r] rest IH]; intros s Hinv.
  - cbn [runEdges fst]. auto.
  - rewrite runEdges_cons.
    destruct (IH _ (handle_preserves_inv t r s Hinv)) as [Hi Hr].
    split; [exact Hi|]. rewrite Hr. apply handle_keeps_role.
Qed.

Lemma inv_zero_count (s : State) :
  decoderInv s -> bitCount (dec s) = 0 -> tempData (dec s) = 0.
Proof.
  intros (_ & Htemp & _) Hz. rewrite Hz in Htemp.
  change (2 ^ 0) with 1 in Htemp. lia.
Qed.

Lemma inv_count_bound (s : State) :
  decoderInv s -> 0 <= bitCount (dec s) <= Z.max addressWidth dataWidth.
Proof.
  intros (Hbits & _). pose proof (frameLength_bound (bus s)).
  change (Z.max addressWidth dataWidth) with dataWidth. lia.
Qed.

(** On a node run from start-up, the pattern that completes a frame fits
    the frame: the shift register never holds more bits than were
    counted. *)
Lemma pattern_fits_frame (b : Bus) (es : list Edge) (reading : bool) :
  let s := fst (runEdges es (initial b)) in
  wrap32 (Z.shiftl (tempData (dec s)) 1 + Z.b2z reading) < 2 ^ dataWidth.
Proof.
  intros s.
  destruct (runEdges_inv es (initial b) (initial_inv b))
    as [(Hbits & Htemp & _) _].
  fold s in Hbits, Htemp.
  pose proof (frameLength_bound (bus s)) as Hfl. unfold dataWidth in *.
  destruct (shifted_range (tempData (dec s)) (bitCount (dec s)) reading)
    as (Hsh & Hrng & Hle); [lia|exact Htemp|].
  rewrite Hsh. lia.
Qed.

(** C8. Along every sequence of invocations from start-up the role stays
    what it was, the bit count lies in
    [[0, max addressWidth dataWidth]] before and after each invocation,
    and an invocation that leaves the bit count at zero leaves the shift
    register at zero too. *)
Theorem bitCount_bounded_and_reset_with_register
  (b : Bus) (es : list Edge) (present : Z) (reading : bool) :
  let before := fst (runEdges es (initial b)) in
  let after := fst (handleOneWireInput present reading before) in
  oneWireListener (bus before) = oneWireListener b
  /\ oneWireListener (bus after) = oneWireListener b
  /\ 0 <= bitCount (dec before) <= Z.max addressWidth dataWidth
  /\ 0 <= bitCount (dec after) <= Z.max addressWidth dataWidth
  /\ (bitCount (dec after) = 0 -> tempData (dec after) = 0).
Proof.
  intros before after.
  destruct (runEdges_inv es (initial b) (initial_inv b)) as [Hinv Hrole].
  fold before in Hinv, Hrole. cbn [initial bus] in Hrole.
  pose proof (handle_preserves_inv present reading before Hinv) as Hinv'.
  fold after in Hinv'.
  repeat split;
    try (apply inv_count_bound; assumption);
    try exact Hrole.
  - unfold after. rewrite handle_keeps_role. exact Hrole.
  - apply inv_zero_count. exact Hinv'.
Qed.

Lemma bitCount_bounded_and_reset_with_register_witness :
  let b := mkBus 2 3 5 (-100) 0 false true in
  let es := [(1000, true); (1080, false); (1160, true); (1240, false)] in
  let after := fst (handleOneWireInput 1320 true
                      (fst (runEdges es (initial b)))) in
  bitCount (dec after) = 0 /\ tempData (dec after) = 0.
Proof.
  intros b es after.
  destruct (bitCount_bounded_and_reset_with_register b es 1320 true)
    as (_ & _ & _ & _ & Hreset).
  split; [reflexivity|apply Hreset; reflexivity].
Defined.

(** ** The wait loop of the request path *)

(** The handler raises the received flag and never lowers it. *)
Lemma handle_keeps_flag (present : Z) (reading : bool) (s : State) :
  oneWireMessageReceived (bus s) = true ->
  oneWireMessageReceived (bus (fst (handleOneWireInput present reading s)))
  = true.
Proof.
  intros Hflag. unfold handleOneWireInput.
  destruct (edgeGap present s <? 3 * pulsePeriod); [exact Hflag|].
  destruct (edgeGap present s >? 2 * bitPeriod); [exact Hflag|].
  destruct (negb (ignoreCount (dec s) =? 0)); [exact Hflag|].
  unfold dispatch, shiftIn, withDecoder.
  cbn [bus dec bitCount tempData ignoreCount lastEdge].
  repeat match goal with
         | |- context [if ?c then _ else _] => destruct c
         end; cbn [fst bus oneWireMessageReceived]; auto.
Qed.

Lemma runEdges_keeps_flag (es : list Edge) :
  forall s,
    oneWireMessageReceived (bus s) = true ->
    oneWireMessageReceived (bus (fst (runEdges es s))) = true.
Proof.
  induction es as [|[t r] rest IH]; intros s Hflag.
  - exact Hflag.
  - rewrite runEdges_cons. apply IH, handle_keeps_flag, Hflag.
Qed.

(** A clock reading at or past the deadline ends the loop. *)
Lemma waitLoop_returns (mark : Z) (ps : list Poll) :
  Exists (fun p => mark <= clock p) ps ->
  forall s, exists r, waitLoop mark ps s = Some r.
Proof.
  induction ps as [|p rest IH]; intros Hex s.
  - inversion Hex.
  - cbn [waitLoop]. destruct (runEdges (isr p) s) as [s1 out1].
    destruct (negb (oneWireMessageReceived (bus s1)) && (clock p <? mark))
      eqn:Hcond; [|eauto].
    apply andb_true_iff in Hcond. destruct Hcond as [_ Hlt].
    apply Z.ltb_lt in Hlt.
    inversion Hex as [? ? Hhd|? ? Htl]; subst; [lia|].
    destruct (IH Htl s1) as [[[s2 out2] n] Hr]. rewrite Hr. eauto.
Qed.

(** The loop iterates only below the deadline, and it stops on a poll that
    finds the flag set or the deadline reached. *)
Lemma waitLoop_exit (mark : Z) (ps : list Poll) :
  forall s s1 out n,
    waitLoop mark ps s = Some (s1, out, n) ->
    (forall j p, (j < n)%nat -> nth_error ps j = Some p -> clock p < mark)
    /\ exists p, nth_error ps n = Some p
                 /\ (oneWireMessageReceived (bus s1) = true
                     \/ mark <= clock p).
Proof.
  induction ps as [|p rest IH]; intros s s1 out n Hrun.
  - discriminate.
  - cbn [waitLoop] in Hrun. destruct (runEdges (isr p) s) as [s' out'].
    destruct (negb (oneWireMessageReceived (bus s')) && (clock p <? mark))
      eqn:Hcond.
    + destruct (waitLoop mark rest s') as [[[s2 out2] m]|] eqn:Hrest;
        [|discriminate].
      injection Hrun as <- <- <-.
      apply andb_true_iff in Hcond. destruct Hcond as [_ Hlt].
      apply Z.ltb_lt in Hlt.
      destruct (IH _ _ _ _ Hrest) as [Hbelow Hstop].
      split.
      * intros [|j] q Hj Hnth; cbn [nth_error] in Hnth.
        -- injection Hnth as <-. exact Hlt.
        -- apply (Hbelow j q); [lia|exact Hnth].
      * exact Hstop.
    + injection Hrun as <- <- <-.
      split; [intros j q Hj; lia|].
      exists p. split; [reflexivity|].
      apply andb_false_iff in Hcond. destruct Hcond as [Hflag|Hclk].
      * left. destruct (oneWireMessageReceived (bus s')); [reflexivity|].
        discriminate.
      * right. apply Z.ltb_ge. exact Hclk.
Qed.

Lemma requestOneWire_returns (targetAdd : Z) (env : Env) (s : State) :
  Exists (fun p => timeoutMark env <= clock p) (polls env) ->
  exists o, requestOneWire targetAdd env s = Some o.
Proof.
  intros Hex. unfold requestOneWire.
  destruct (waitLoop_returns _ _ Hex s) as [[[s1 out1] n] ->].
  destruct (runEdges (lastIsr env) s1). eauto.
Qed.

(** ** Response or default *)

(** The wait loop, iteration by iteration: where it stops, what the handler
    has served by then, and what every earlier iteration read. *)
Lemma waitLoop_served (mark : Z) (ps : list Poll) :
  forall s s1 out n,
    waitLoop mark ps s = Some (s1, out, n) ->
    runEdges (concat (map isr (firstn (S n) ps))) s = (s1, out)
    /\ (forall j q,
          (j < n)%nat ->
          nth_error ps j = Some q ->
          oneWireMessageReceived
            (bus (fst (runEdges (concat (map isr (firstn (S j) ps))) s)))
          = false
          /\ clock q < mark)
    /\ exists p,
        nth_error ps n = Some p
        /\ (oneWireMessageReceived (bus s1) = true
            \/ (oneWireMessageReceived (bus s1) = false
                /\ mark <= clock p)).
Proof.
  induction ps as [|p rest IH]; intros s s1 out n Hrun; [discriminate|].
  cbn [waitLoop] in Hrun.
  destruct (runEdges (isr p) s) as [s' out'] eqn:Hisr.
  destruct (negb (oneWireMessageReceived (bus s')) && (clock p <? mark))
    eqn:Hcond.
  - destruct (waitLoop mark rest s') as [[[s2 out2] m]|] eqn:Hrest;
      [|discriminate].
    injection Hrun as <- <- <-.
    apply andb_true_iff in Hcond. destruct Hcond as [Hflag Hlt].
    apply negb_true_iff in Hflag. apply Z.ltb_lt in Hlt.
    destruct (IH _ _ _ _ Hrest) as (Hserved & Hbelow & Hstop).
    split; [|split].
    + change (firstn (S (S m)) (p :: rest)) with (p :: firstn (S m) rest).
      cbn [map concat]. rewrite runEdges_app, Hisr. cbn [fst snd].
      rewrite Hserved. reflexivity.
    + intros [|j] q Hj Hnth; cbn [nth_error] in Hnth.
      * injection Hnth as <-.
        change (firstn 1 (p :: rest)) with [p].
        cbn [map concat]. rewrite app_nil_r, Hisr. cbn [fst]. auto.
      * change (firstn (S (S j)) (p :: rest)) with (p :: firstn (S j) rest).
        cbn [map concat]. rewrite runEdges_app, Hisr. cbn [fst snd].
        apply (Hbelow j q); [lia|exact Hnth].
    + exact Hstop.
  - injection Hrun as <- <- <-.
    split; [|split].
    + change (firstn 1 (p :: rest)) with [p].
      cbn [map concat]. rewrite app_nil_r. exact Hisr.
    + intros j q Hj. lia.
    + exists p. split; [reflexivity|].
      apply andb_false_iff in Hcond.
      destruct (oneWireMessageReceived (bus s')); [left; reflexivity|].
      right. split; [reflexivity|].
      destruct Hcond as [Hflag|Hclk]; [discriminate|].
      apply Z.ltb_ge. exact Hclk.
Qed.

(** C4, as the code has it.  Whatever the target address, a call whose
    clock reaches the deadline returns.  A call that returns has sent the
    wake pulse and the address frame, has iterated only while it read the
    flag clear and the clock below the deadline, takes its result from the
    flag and the incoming payload as they are at the test of line 154, and
    leaves the flag clear.  It has one of three outcomes.  The loop read
    the flag set, within the window: incoming is delivered.  The loop read
    the flag clear and the clock at or past the deadline, and the flag is
    still clear at line 154: 0 is delivered.  The loop ended on the
    deadline with the flag clear, and the handler raised the flag before
    line 154: incoming is delivered although the window has passed. *)
Theorem request_outcomes (targetAdd : Z) (env : Env) (s : State) :
  (Exists (fun p => timeoutMark env <= clock p) (polls env) ->
   exists o, requestOneWire targetAdd env s = Some o)
  /\ (forall o,
        requestOneWire targetAdd env s = Some o ->
        let n := iterations o in
        let inLoop := atFlagRead env s n in
        let check := atDelivery env s n in
        output o
        = [NoInterrupts; DigitalWrite (pinTX (bus s)) HIGH;
           DelayMicroseconds pulsePeriod]
          ++ sendData (pinTX (bus s)) (wrap32 targetAdd) addressWidth
          ++ snd (runEdges (servedEdges env (S n)) s)
          ++ snd (runEdges (lastIsr env) inLoop)
          ++ [DigitalWrite 13 HIGH]
        /\ (forall j q,
              (j < n)%nat ->
              nth_error (polls env) j = Some q ->
              oneWireMessageReceived (bus (atFlagRead env s j)) = false
              /\ clock q < timeoutMark env)
        /\ received o = oneWireMessageReceived (bus check)
        /\ final o = clearReceived check
        /\ oneWireMessageReceived (bus (final o)) = false
        /\ exists p,
            nth_error (polls env) n = Some p
            /\ ((oneWireMessageReceived (bus inLoop) = true
                 /\ received o = true
                 /\ destination o = oneWirePayloadIn (bus check))
                \/ (oneWireMessageReceived (bus inLoop) = false
                    /\ timeoutMark env <= clock p
                    /\ received o = false
                    /\ destination o = 0)
                \/ (oneWireMessageReceived (bus inLoop) = false
                    /\ timeoutMark env <= clock p
                    /\ received o = true
                    /\ destination o = oneWirePayloadIn (bus check)))).
Proof.
  split; [apply requestOneWire_returns|].
  intros o Hrun n inLoop check. unfold requestOneWire in Hrun.
  destruct (waitLoop (timeoutMark env) (polls env) s)
    as [[[s1 out1] m]|] eqn:Hwait; [|discriminate].
  destruct (runEdges (lastIsr env) s1) as [s2 out2] eqn:Hlast.
  destruct (waitLoop_served _ _ _ _ _ _ Hwait)
    as (Hserved & Hbelow & p & Hnth & Hstop).
  assert (Hn : n = m) by (subst n; injection Hrun as <-; reflexivity).
  assert (HinLoop : inLoop = s1).
  { subst inLoop. rewrite Hn. unfold atFlagRead, servedEdges.
    rewrite Hserved. reflexivity. }
  assert (Hcheck : check = s2).
  { subst check. unfold atDelivery. fold inLoop.
    rewrite HinLoop, Hlast. reflexivity. }
  assert (Hout : snd (runEdges (servedEdges env (S n)) s) = out1).
  { rewrite Hn. unfold servedEdges. rewrite Hserved. reflexivity. }
  rewrite Hout, HinLoop, Hcheck, Hlast, Hn. cbn [snd].
  assert (Ho : o = mkOutcome
                     (if oneWireMessageReceived (bus s2)
                      then oneWirePayloadIn (bus s2) else 0)
                     (oneWireMessageReceived (bus s2)) (clearReceived s2)
                     ([NoInterrupts; DigitalWrite (pinTX (bus s)) HIGH;
                       DelayMicroseconds pulsePeriod]
                      ++ sendData (pinTX (bus s)) (wrap32 targetAdd)
                                  addressWidth
                      ++ out1 ++ out2 ++ [DigitalWrite 13 HIGH])
                     m)
    by (injection Hrun as <-; reflexivity).
  rewrite Ho. cbn [output received final destination].
  split; [reflexivity|]. split; [exact Hbelow|].
  split; [reflexivity|]. split; [reflexivity|]. split; [reflexivity|].
  exists p. split; [exact Hnth|].
  destruct Hstop as [Hset|[Hclear Hclk]].
  - left. pose proof (runEdges_keeps_flag (lastIsr env) s1 Hset) as Hkept.
    rewrite Hlast in Hkept. cbn [fst] in Hkept. rewrite Hkept. auto.
  - right. destruct (oneWireMessageReceived (bus s2)); [right|left]; auto.
Qed.

Lemma request_outcomes_witness :
  (exists o,
      requestOneWire 5
        (mkEnv 100 [mkPoll [] 100; mkPoll [(1080, false)] 101] [])
        (mkState (mkBus 2 3 0 0 0 false false)
                 (mkDecoder 1000 23 0 8388558))
      = Some o
      /\ iterations o = 1%nat
      /\ received o = true
      /\ oneWireMessageReceived (bus (final o)) = false)
  /\ (exists o,
        requestOneWire 5
          (mkEnv 100 [mkPoll [] 100; mkPoll [] 105; mkPoll [] 110] [])
          (mkState (mkBus 2 3 0 0 0 false false)
                   (mkDecoder 1000 23 0 8388558))
        = Some o
        /\ received o = false
        /\ oneWireMessageReceived (bus (final o)) = false).
Proof.
  split.
  - destruct (request_outcomes 5
                (mkEnv 100 [mkPoll [] 100; mkPoll [(1080, false)] 101] [])
                (mkState (mkBus 2 3 0 0 0 false false)
                         (mkDecoder 1000 23 0 8388558)))
      as [_ Hout].
    eexists. split; [reflexivity|]. split; [reflexivity|].
    destruct (Hout _ eq_refl) as (_ & _ & Hrec & _ & Hclear & _).
    split; [exact Hrec|exact Hclear].
  - destruct (request_outcomes 5
                (mkEnv 100 [mkPoll [] 100; mkPoll [] 105; mkPoll [] 110] [])
                (mkState (mkBus 2 3 0 0 0 false false)
                         (mkDecoder 1000 23 0 8388558)))
      as [Hret Hout].
    destruct Hret as [o Ho].
    { do 2 apply Exists_cons_tl. apply Exists_cons_hd.
      vm_compute. discriminate. }
    exists o. split; [exact Ho|].
    destruct (Hout o Ho) as (_ & _ & Hrec & _ & Hclear & _).
    split; [|exact Hclear].
    rewrite Hrec. vm_compute in Ho. injection Ho as <-. reflexivity.
Defined.

(** C4, as the specification words it, fails.  The controller below has 23
    bits of a response, the last one taken at 109950 microseconds.  The
    loop reads the flag clear four times; its fourth clock reading, 110, is
    the deadline, so the loop ends without having read the flag set.  The
    edge that completes the frame comes at 110030 microseconds and is
    served before line 154.  The timeout has elapsed without the flag, and
    the call delivers the incoming payload -100, not 0. *)
Lemma request_late_flag_counterexample :
  exists o,
    requestOneWire 5
      (mkEnv 100
         [mkPoll [] 100; mkPoll [] 105; mkPoll [] 109; mkPoll [] 110]
         [(110030, false)])
      (mkState (mkBus 2 3 0 0 0 false false)
               (mkDecoder 109950 23 0 8388558))
    = Some o
    /\ iterations o = 3%nat
    /\ oneWireMessageReceived
         (bus (atFlagRead
                 (mkEnv 100
                    [mkPoll [] 100; mkPoll [] 105; mkPoll [] 109;
                     mkPoll [] 110]
                    [(110030, false)])
                 (mkState (mkBus 2 3 0 0 0 false false)
                          (mkDecoder 109950 23 0 8388558))
                 3))
       = false
    /\ timeoutMark
         (mkEnv 100
            [mkPoll [] 100; mkPoll [] 105; mkPoll [] 109; mkPoll [] 110]
            [(110030, false)])
       <= 110
    /\ received o = true
    /\ destination o = -100
    /\ destination o <> 0.
Proof.
  eexists. split; [reflexivity|].
  vm_compute. repeat split; discriminate.
Qed.

(** ** Deadline arithmetic *)

(** C9. When [millis()] at line 147 returns a value above [2 ^ 32 - 11], the
    deadline [millis() + 10] wraps around modulo [2 ^ 32].  The first test
    [millis() < timeoutMark], made before the clock itself overflows, is
    then false: the loop body runs zero times, and with no message pending
    the call delivers 0 at once. *)
Theorem deadline_wraps_without_waiting
  (targetAdd : Z) (env : Env) (s : State) (p : Poll) (rest : list Poll)
  (Hstart : 2 ^ 32 - 11 < startClock env < 2 ^ 32)
  (Hpolls : polls env = p :: rest)
  (Hclock : startClock env <= clock p < 2 ^ 32)
  (Hquiet : oneWireMessageReceived (bus (fst (runEdges (isr p) s))) = false)
  (Hquiet' : oneWireMessageReceived
               (bus (fst (runEdges (lastIsr env)
                            (fst (runEdges (isr p) s))))) = false) :
  timeoutMark env = startClock env + 10 - 2 ^ 32
  /\ (clock p <? timeoutMark env) = false
  /\ exists o,
      requestOneWire targetAdd env s = Some o
      /\ iterations o = O
      /\ received o = false
      /\ destination o = 0.
Proof.
  assert (Hmark : timeoutMark env = startClock env + 10 - 2 ^ 32).
  { unfold timeoutMark, wrap32.
    symmetry. apply (Z.mod_unique _ _ 1); lia. }
  assert (Htest : (clock p <? timeoutMark env) = false)
    by (apply Z.ltb_ge; lia).
  split; [exact Hmark|]. split; [exact Htest|].
  unfold requestOneWire. rewrite Hpolls. cbn [waitLoop].
  destruct (runEdges (isr p) s) as [s1 out1]. cbn [fst] in Hquiet, Hquiet'.
  rewrite Htest, andb_false_r.
  destruct (runEdges (lastIsr env) s1) as [s2 out2]. cbn [fst] in Hquiet'.
  eexists. split; [reflexivity|].
  cbn [iterations received destination]. rewrite Hquiet'. auto.
Qed.

Lemma deadline_wraps_without_waiting_witness :
  let s := mkState (mkBus 2 3 0 0 0 false false) decoderInit in
  let env := mkEnv 4294967290 [mkPoll [] 4294967290] [] in
  timeoutMark env = 4
  /\ (4294967290 <? timeoutMark env) = false
  /\ exists o,
      requestOneWire 5 env s = Some o
      /\ iterations o = O
      /\ received o = false
      /\ destination o = 0.
Proof.
  intros s env.
  refine (deadline_wraps_without_waiting 5 env s (mkPoll [] 4294967290) []
            _ eq_refl _ eq_refl eq_refl);
    vm_compute; split; congruence.
Defined.

(** ** The write to pin 13 *)

(** C10. A call whose clock reaches the deadline returns, and every call
    that returns, whether it found a response or not, has driven pin 13
    high as its last output before it delivers the result.  The pin number
    is the literal 13: it is taken from neither [pinRX] nor [pinTX]. *)
Theorem request_drives_pin_13
  (targetAdd : Z) (env : Env) (s : State) :
  (Exists (fun p => timeoutMark env <= clock p) (polls env) ->
   exists o, requestOneWire targetAdd env s = Some o)
  /\ (forall o,
        requestOneWire targetAdd env s = Some o ->
        exists before, output o = before ++ [DigitalWrite 13 HIGH]).
Proof.
  split; [apply requestOneWire_returns|].
  intros o Hrun. unfold requestOneWire in Hrun.
  destruct (waitLoop (timeoutMark env) (polls env) s)
    as [[[s1 out1] n]|]; [|discriminate].
  destruct (runEdges (lastIsr env) s1) as [s2 out2].
  injection Hrun as <-. cbn [output].
  exists ([NoInterrupts; DigitalWrite (pinTX (bus s)) HIGH;
           DelayMicroseconds pulsePeriod]
          ++ sendData (pinTX (bus s)) (wrap32 targetAdd) addressWidth
          ++ out1 ++ out2).
  rewrite <- !app_assoc. reflexivity.
Qed.

Lemma request_drives_pin_13_witness :
  let s := mkState (mkBus 2 3 0 0 0 false false)
                   (mkDecoder 1000 23 0 8388558) in
  let answered := mkEnv 100 [mkPoll [] 100; mkPoll [(1080, false)] 101] [] in
  let silent := mkEnv 100 [mkPoll [] 100; mkPoll [] 105; mkPoll [] 110] [] in
  (exists o before,
      requestOneWire 5 answered s = Some o
      /\ received o = true
      /\ output o = before ++ [DigitalWrite 13 HIGH])
  /\ (exists o before,
        requestOneWire 5 silent s = Some o
        /\ received o = false
        /\ output o = before ++ [DigitalWrite 13 HIGH]).
Proof.
  intros s answered silent. split.
  - destruct (request_drives_pin_13 5 answered s) as [_ Hout].
    destruct (Hout _ eq_refl) as [before Hbefore].
    eexists. exists before.
    split; [reflexivity|]. split; [reflexivity|exact Hbefore].
  - destruct (request_drives_pin_13 5 silent s) as [_ Hout].
    destruct (Hout _ eq_refl) as [before Hbefore].
    eexists. exists before.
    split; [reflexivity|]. split; [reflexivity|exact Hbefore].
Defined.

(** ** Transmitter against decoder *)

Section RoundTrip.

Variable tx : Z.

(** The mask test of the transmitter reads bit [i - 1] of the data. *)
Lemma currentBit_testbit (data : Z) (j : nat) :
  (j < 32)%nat -> currentBit data (S j) = Z.testbit data (Z.of_nat j).
Proof.
  intros Hj. unfold currentBit.
  replace (Z.of_nat (S j) - 1) with (Z.of_nat j) by lia.
  assert (Hpow : 0 < 2 ^ Z.of_nat j < 2 ^ 32).
  { split; [apply pow2_pos; lia|apply Z.pow_lt_mono_r; lia]. }
  rewrite wrap32_small by (rewrite Z.shiftl_1_l; lia).
  rewrite Z.land_comm, land_bit by lia.
  destruct (Z.testbit data (Z.of_nat j)).
  - destruct (Z.eqb_spec (2 ^ Z.of_nat j) 0); [lia|reflexivity].
  - reflexivity.
Qed.

(** One more bit of the data below the ones already taken. *)
Lemma mod_pow2_succ (data k : Z) :
  0 <= k ->
  data mod 2 ^ (k + 1)
  = Z.b2z (Z.testbit data k) * 2 ^ k + data mod 2 ^ k.
Proof.
  intros Hk. pose proof (pow2_pos k Hk) as Hpos.
  rewrite Z.pow_add_r by lia. change (2 ^ 1) with 2.
  rewrite Z.rem_mul_r by lia.
  rewrite Z.testbit_spec' by exact Hk. ring.
Qed.

Lemma runEdges_step (t : Z) (r : bool) (rest : list Edge) (s : State) :
  runEdges ((t, r) :: rest) s = andThen (handleOneWireInput t r s) rest.
Proof.
  unfold andThen. cbn [runEdges].
  destruct (handleOneWireInput t r s) as [s1 o1]. cbn [fst snd].
  destruct (runEdges rest s1). reflexivity.
Qed.

Lemma andThen_silent (s : State) (es : list Edge) :
  andThen (s, []) es = runEdges es s.
Proof.
  unfold andThen. cbn [fst snd app]. destruct (runEdges es s). reflexivity.
Qed.

Lemma dispatch_keeps_lastEdge (s : State) :
  lastEdge (dec (fst (dispatch s))) = lastEdge (dec s).
Proof.
  unfold dispatch, withDecoder.
  repeat match goal with
         | |- context [if ?c then _ else _] => destruct c
         end; reflexivity.
Qed.

(** Below the frame length nothing is dispatched. *)
Lemma dispatch_incomplete (s : State) :
  bitCount (dec s) < frameLength (bus s) -> dispatch s = (s, []).
Proof.
  unfold dispatch, frameLength. intros Hlt.
  destruct (oneWireListener (bus s)).
  - destruct (Z.eqb_spec (bitCount (dec s)) addressWidth); [lia|reflexivity].
  - destruct (Z.eqb_spec (bitCount (dec s)) dataWidth); [lia|reflexivity].
Qed.

Lemma busEdges_write (b level : bool) (t : Z) (rest : Trace) :
  busEdges tx t level (DigitalWrite tx b :: rest)
  = if eqb b level then busEdges tx t level rest
    else (wrap32 t, busLevel b) :: busEdges tx t b rest.
Proof.
  unfold busEdges. cbn [waveform]. rewrite Z.eqb_refl.
  destruct (eqb b level); reflexivity.
Qed.

(** The slot of one bit [b], sent from time [t] with the decoder last
    synchronised [pulsePeriod] earlier: the edge at the start of the slot,
    if there is one, is rejected as a glitch; the edge in the middle is
    accepted and reads [b]. *)
Lemma bit_slot (b level : bool) (t : Z) (rest : Trace) (s : State) :
  lastEdge (dec s) = wrap32 (t - pulsePeriod) ->
  ignoreCount (dec s) = 0 ->
  runEdges
    (busEdges tx t level
       (DigitalWrite tx b
        :: DelayMicroseconds (bitPeriod - pulsePeriod)
        :: DigitalWrite tx (negb b)
        :: DelayMicroseconds pulsePeriod
        :: rest)) s
  = andThen
      (dispatch
         (shiftIn b
            (withDecoder s
               (mkDecoder (wrap32 (t + bitPeriod - pulsePeriod))
                          (bitCount (dec s)) (ignoreCount (dec s))
                          (tempData (dec s))))))
      (busEdges tx (t + bitPeriod) (negb b) rest).
Proof.
  intros Hsync Hign.
  assert (Hmid :
    runEdges
      (busEdges tx t b
         (DelayMicroseconds (bitPeriod - pulsePeriod)
          :: DigitalWrite tx (negb b)
          :: DelayMicroseconds pulsePeriod
          :: rest)) s
    = andThen
        (dispatch
           (shiftIn b
              (withDecoder s
                 (mkDecoder (wrap32 (t + bitPeriod - pulsePeriod))
                            (bitCount (dec s)) (ignoreCount (dec s))
                            (tempData (dec s))))))
        (busEdges tx (t + bitPeriod) (negb b) rest)).
  { unfold busEdges. cbn [waveform]. rewrite Z.eqb_refl.
    replace (eqb (negb b) b) with false by (destruct b; reflexivity).
    cbn [map fst snd]. unfold busLevel. rewrite negb_involutive.
    rewrite runEdges_step.
    replace (t + (bitPeriod - pulsePeriod) + pulsePeriod)
      with (t + bitPeriod) by ring.
    replace (t + (bitPeriod - pulsePeriod))
      with (t + bitPeriod - pulsePeriod) by ring.
    rewrite handle_bit; [reflexivity| |exact Hign].
    unfold inWindow, edgeGap. rewrite Hsync.
    replace (t + bitPeriod - pulsePeriod)
      with (t + (bitPeriod - pulsePeriod)) by ring.
    replace (t - pulsePeriod) with (t + - pulsePeriod) by ring.
    rewrite wrap32_gap. vm_compute. split; discriminate. }
  rewrite busEdges_write.
  destruct (eqb b level) eqn:Hlevel.
  - apply eqb_prop in Hlevel. subst level. exact Hmid.
  - rewrite runEdges_step, handle_glitch, andThen_silent; [exact Hmid|].
    unfold edgeGap. rewrite Hsync.
    replace t with (t + 0) at 1 by ring.
    replace (t - pulsePeriod) with (t + - pulsePeriod) by ring.
    rewrite wrap32_gap. vm_compute. reflexivity.
Qed.

End RoundTrip.

Section Frames.

Variable tx : Z.

Lemma sendBits_succ (data : Z) (j : nat) :
  sendBits tx data (S j)
  = DigitalWrite tx (currentBit data (S j))
    :: DelayMicroseconds (bitPeriod - pulsePeriod)
    :: DigitalWrite tx (negb (currentBit data (S j)))
    :: DelayMicroseconds pulsePeriod
    :: sendBits tx data j.
Proof. reflexivity. Qed.

(** The decoder after the accepted edge of a slot, before the frame
    test. *)
Lemma slot_state (s : State) (present : Z) (b : bool) :
  ignoreCount (dec s) = 0 ->
  0 <= bitCount (dec s) < 24 ->
  0 <= tempData (dec s) < 2 ^ bitCount (dec s) ->
  shiftIn b
    (withDecoder s
       (mkDecoder present (bitCount (dec s)) (ignoreCount (dec s))
                  (tempData (dec s))))
  = framed s present (bitCount (dec s) + 1)
           (2 * tempData (dec s) + Z.b2z b).
Proof.
  intros Hign Hc Hd.
  destruct (shifted_range _ _ b Hc Hd) as (Hsh & _ & _).
  unfold shiftIn, framed, withDecoder.
  cbn [bus dec bitCount tempData ignoreCount lastEdge].
  rewrite Hsh, Hign, wrap8_small by lia. reflexivity.
Qed.

Lemma shift_step (data d k : Z) :
  0 <= k ->
  (2 * d + Z.b2z (Z.testbit data k)) * 2 ^ k + data mod 2 ^ k
  = d * 2 ^ (k + 1) + data mod 2 ^ (k + 1).
Proof.
  intros Hk. rewrite mod_pow2_succ by exact Hk.
  rewrite Z.pow_add_r by lia. change (2 ^ 1) with 2. ring.
Qed.

(** A run of [S k] bit slots, sent from time [t] to a decoder synchronised
    [pulsePeriod] earlier that has room for them in its frame: all
    [S k] bits are shifted in, most significant first, and the frame test
    fires at most on the last. *)
Lemma frame_run (data : Z) (tail : Trace) (k : nat) :
  forall (s : State) (t : Z) (level : bool),
    (k < 32)%nat ->
    lastEdge (dec s) = wrap32 (t - pulsePeriod) ->
    ignoreCount (dec s) = 0 ->
    0 <= bitCount (dec s) ->
    bitCount (dec s) + Z.of_nat (S k) <= frameLength (bus s) ->
    0 <= tempData (dec s) < 2 ^ bitCount (dec s) ->
    runEdges (busEdges tx t level (sendBits tx data (S k) ++ tail)) s
    = andThen
        (dispatch
           (framed s
              (wrap32 (t + Z.of_nat (S k) * bitPeriod - pulsePeriod))
              (bitCount (dec s) + Z.of_nat (S k))
              (tempData (dec s) * 2 ^ Z.of_nat (S k)
               + data mod 2 ^ Z.of_nat (S k))))
        (busEdges tx (t + Z.of_nat (S k) * bitPeriod)
                  (negb (Z.testbit data 0)) tail).
Proof.
  induction k as [|k IH]; intros s t level Hk Hsync Hign Hc Hroom Hd;
    pose proof (frameLength_bound (bus s)) as Hfl; unfold dataWidth in Hfl.
  - rewrite sendBits_succ. cbn [sendBits app].
    rewrite bit_slot by assumption.
    rewrite currentBit_testbit by lia.
    rewrite slot_state by (try assumption; lia).
    change (Z.of_nat 1) with 1. change (Z.of_nat 0) with 0.
    rewrite Z.mul_1_l.
    pose proof (shift_step data (tempData (dec s)) 0 (Z.le_refl 0)) as Hst.
    change (2 ^ 0) with 1 in Hst. rewrite Z.mod_1_r in Hst.
    change (0 + 1) with 1 in Hst.
    replace (2 * tempData (dec s) + Z.b2z (Z.testbit data 0))
      with (tempData (dec s) * 2 ^ 1 + data mod 2 ^ 1) by lia.
    reflexivity.
  - rewrite sendBits_succ. cbn [app].
    rewrite bit_slot by assumption.
    rewrite currentBit_testbit by lia.
    rewrite slot_state by (try assumption; lia).
    destruct (shifted_range (tempData (dec s)) (bitCount (dec s))
                (Z.testbit data (Z.of_nat (S k))))
      as (_ & Hrng & _); [lia|exact Hd|].
    rewrite dispatch_incomplete
      by (unfold framed, withDecoder; cbn [bus dec bitCount]; lia).
    rewrite andThen_silent.
    rewrite IH;
      unfold framed, withDecoder;
      cbn [bus dec bitCount tempData ignoreCount lastEdge];
      try assumption; try reflexivity; try lia.
    f_equal; [|f_equal; lia].
    f_equal. unfold framed, withDecoder. cbn [bus].
    f_equal. f_equal.
    + f_equal. lia.
    + lia.
    + rewrite shift_step by lia. do 2 f_equal; lia.
Qed.

(** The release of the line at the end of a frame comes [pulsePeriod]
    after the last accepted edge: the decoder rejects it. *)
Lemma release_rejected (r : State * Trace) (t : Z) (level : bool) :
  lastEdge (dec (fst r)) = wrap32 (t - pulsePeriod) ->
  andThen r (busEdges tx t level [DigitalWrite tx LOW; Interrupts]) = r.
Proof.
  intros Hsync. rewrite busEdges_write.
  unfold andThen.
  destruct (eqb LOW level).
  - unfold busEdges. cbn [waveform map runEdges fst snd].
    rewrite app_nil_r. destruct r; reflexivity.
  - unfold busEdges. cbn [waveform map].
    rewrite runEdges_step, handle_glitch.
    + unfold andThen. cbn [runEdges fst snd]. rewrite app_nil_r.
      destruct r; reflexivity.
    + unfold edgeGap. rewrite Hsync.
      replace t with (t + 0) at 1 by ring.
      replace (t - pulsePeriod) with (t + - pulsePeriod) by ring.
      rewrite wrap32_gap. vm_compute. reflexivity.
Qed.

(** A whole frame of [S k] bits of [sendData], from a decoder in reset
    state. *)
Lemma sendData_run (s : State) (t : Z) (level : bool) (v : Z) (k : nat) :
  (k < 32)%nat ->
  Z.of_nat (S k) <= frameLength (bus s) ->
  0 <= v < 2 ^ Z.of_nat (S k) ->
  bitCount (dec s) = 0 ->
  ignoreCount (dec s) = 0 ->
  tempData (dec s) = 0 ->
  lastEdge (dec s) = wrap32 (t - pulsePeriod) ->
  runEdges (busEdges tx t level (sendData tx v (Z.of_nat (S k)))) s
  = dispatch
      (framed s (wrap32 (t + Z.of_nat (S k) * bitPeriod - pulsePeriod))
              (Z.of_nat (S k)) v).
Proof.
  intros Hk Hroom Hv Hbits Hign Htemp Hsync.
  unfold sendData. rewrite Nat2Z.id.
  change (busEdges tx t level
            (NoInterrupts
             :: sendBits tx v (S k) ++ [DigitalWrite tx LOW; Interrupts]))
    with (busEdges tx t level
            (sendBits tx v (S k) ++ [DigitalWrite tx LOW; Interrupts])).
  rewrite frame_run; try assumption; try lia.
  rewrite Hbits, Htemp, Z.mul_0_l, !Z.add_0_l.
  rewrite (Z.mod_small v) by exact Hv.
  apply release_rejected.
  rewrite dispatch_keeps_lastEdge. unfold framed, withDecoder.
  cbn [dec lastEdge]. reflexivity.
Qed.

Lemma shiftsBit_glitch (present : Z) (s : State) :
  edgeGap present s < 3 * pulsePeriod -> shiftsBit present s = false.
Proof.
  intros H. unfold shiftsBit.
  destruct (Z.ltb_spec (edgeGap present s) (3 * pulsePeriod)); [reflexivity|].
  lia.
Qed.

Lemma shiftsBit_bit (present : Z) (s : State) :
  inWindow present s -> ignoreCount (dec s) = 0 -> shiftsBit present s = true.
Proof.
  intros [Hlo Hhi] Hign. unfold shiftsBit. rewrite Hign.
  destruct (Z.ltb_spec (edgeGap present s) (3 * pulsePeriod)); [lia|].
  destruct (Z.gtb_spec (edgeGap present s) (2 * bitPeriod)); [lia|].
  reflexivity.
Qed.

(** Of the edges of one bit slot exactly one is accepted. *)
Lemma bit_slot_count (b level : bool) (t : Z) (rest : Trace) (s : State) :
  lastEdge (dec s) = wrap32 (t - pulsePeriod) ->
  ignoreCount (dec s) = 0 ->
  acceptedEdges
    (busEdges tx t level
       (DigitalWrite tx b
        :: DelayMicroseconds (bitPeriod - pulsePeriod)
        :: DigitalWrite tx (negb b)
        :: DelayMicroseconds pulsePeriod
        :: rest)) s
  = S (acceptedEdges
         (busEdges tx (t + bitPeriod) (negb b) rest)
         (fst (dispatch
                 (shiftIn b
                    (withDecoder s
                       (mkDecoder (wrap32 (t + bitPeriod - pulsePeriod))
                                  (bitCount (dec s)) (ignoreCount (dec s))
                                  (tempData (dec s)))))))).
Proof.
  intros Hsync Hign.
  assert (Hmid :
    acceptedEdges
      (busEdges tx t b
         (DelayMicroseconds (bitPeriod - pulsePeriod)
          :: DigitalWrite tx (negb b)
          :: DelayMicroseconds pulsePeriod
          :: rest)) s
    = S (acceptedEdges
           (busEdges tx (t + bitPeriod) (negb b) rest)
           (fst (dispatch
                   (shiftIn b
                      (withDecoder s
                         (mkDecoder (wrap32 (t + bitPeriod - pulsePeriod))
                                    (bitCount (dec s)) (ignoreCount (dec s))
                                    (tempData (dec s))))))))).
  { assert (Hwin : inWindow (wrap32 (t + bitPeriod - pulsePeriod)) s).
    { unfold inWindow, edgeGap. rewrite Hsync.
      replace (t + bitPeriod - pulsePeriod)
        with (t + (bitPeriod - pulsePeriod)) by ring.
      replace (t - pulsePeriod) with (t + - pulsePeriod) by ring.
      rewrite wrap32_gap. vm_compute. split; discriminate. }
    unfold busEdges. cbn [waveform]. rewrite Z.eqb_refl.
    replace (eqb (negb b) b) with false by (destruct b; reflexivity).
    cbn [map fst snd]. unfold busLevel. rewrite negb_involutive.
    replace (t + (bitPeriod - pulsePeriod) + pulsePeriod)
      with (t + bitPeriod) by ring.
    replace (t + (bitPeriod - pulsePeriod))
      with (t + bitPeriod - pulsePeriod) by ring.
    cbn [acceptedEdges].
    rewrite shiftsBit_bit, handle_bit by assumption. reflexivity. }
  rewrite busEdges_write.
  destruct (eqb b level) eqn:Hlevel.
  - apply eqb_prop in Hlevel. subst level. exact Hmid.
  - assert (Hgap : edgeGap (wrap32 t) s < 3 * pulsePeriod).
    { unfold edgeGap. rewrite Hsync.
      replace t with (t + 0) at 1 by ring.
      replace (t - pulsePeriod) with (t + - pulsePeriod) by ring.
      rewrite wrap32_gap. vm_compute. reflexivity. }
    cbn [acceptedEdges].
    rewrite shiftsBit_glitch, handle_glitch by exact Hgap.
    cbn [fst]. exact Hmid.
Qed.

(** Of the edges of a run of [S k] bit slots exactly [S k] are accepted. *)
Lemma frame_count (data : Z) (tail : Trace) (k : nat) :
  forall (s : State) (t : Z) (level : bool),
    (k < 32)%nat ->
    lastEdge (dec s) = wrap32 (t - pulsePeriod) ->
    ignoreCount (dec s) = 0 ->
    0 <= bitCount (dec s) ->
    bitCount (dec s) + Z.of_nat (S k) <= frameLength (bus s) ->
    0 <= tempData (dec s) < 2 ^ bitCount (dec s) ->
    acceptedEdges (busEdges tx t level (sendBits tx data (S k) ++ tail)) s
    = (S k
       + acceptedEdges
           (busEdges tx (t + Z.of_nat (S k) * bitPeriod)
                     (negb (Z.testbit data 0)) tail)
           (fst (dispatch
                   (framed s
                      (wrap32 (t + Z.of_nat (S k) * bitPeriod - pulsePeriod))
                      (bitCount (dec s) + Z.of_nat (S k))
                      (tempData (dec s) * 2 ^ Z.of_nat (S k)
                       + data mod 2 ^ Z.of_nat (S k))))))%nat.
Proof.
  induction k as [|k IH]; intros s t level Hk Hsync Hign Hc Hroom Hd;
    pose proof (frameLength_bound (bus s)) as Hfl; unfold dataWidth in Hfl.
  - rewrite sendBits_succ. cbn [sendBits app].
    rewrite bit_slot_count by assumption.
    rewrite currentBit_testbit by lia.
    rewrite slot_state by (try assumption; lia).
    change (Z.of_nat 1) with 1. change (Z.of_nat 0) with 0.
    rewrite Z.mul_1_l.
    pose proof (shift_step data (tempData (dec s)) 0 (Z.le_refl 0)) as Hst.
    change (2 ^ 0) with 1 in Hst. rewrite Z.mod_1_r in Hst.
    change (0 + 1) with 1 in Hst.
    replace (2 * tempData (dec s) + Z.b2z (Z.testbit data 0))
      with (tempData (dec s) * 2 ^ 1 + data mod 2 ^ 1) by lia.
    reflexivity.
  - rewrite sendBits_succ. cbn [app].
    rewrite bit_slot_count by assumption.
    rewrite currentBit_testbit by lia.
    rewrite slot_state by (try assumption; lia).
    destruct (shifted_range (tempData (dec s)) (bitCount (dec s))
                (Z.testbit data (Z.of_nat (S k))))
      as (_ & Hrng & _); [lia|exact Hd|].
    rewrite dispatch_incomplete
      by (unfold framed, withDecoder; cbn [bus dec bitCount]; lia).
    cbn [fst].
    rewrite IH;
      unfold framed, withDecoder;
      cbn [bus dec bitCount tempData ignoreCount lastEdge];
      try assumption; try reflexivity; try lia.
    cbn [Nat.add].
    replace (t + bitPeriod + Z.of_nat (S k) * bitPeriod)
      with (t + Z.of_nat (S (S k)) * bitPeriod) by lia.
    replace (bitCount (dec s) + 1 + Z.of_nat (S k))
      with (bitCount (dec s) + Z.of_nat (S (S k))) by lia.
    rewrite shift_step by lia.
    replace (Z.of_nat (S k) + 1) with (Z.of_nat (S (S k))) by lia.
    reflexivity.
Qed.

Lemma release_count (s : State) (t : Z) (level : bool) :
  lastEdge (dec s) = wrap32 (t - pulsePeriod) ->
  acceptedEdges (busEdges tx t level [DigitalWrite tx LOW; Interrupts]) s = O.
Proof.
  intros Hsync. rewrite busEdges_write.
  destruct (eqb LOW level); [reflexivity|].
  unfold busEdges. cbn [waveform map acceptedEdges].
  rewrite shiftsBit_glitch; [reflexivity|].
  unfold edgeGap. rewrite Hsync.
  replace t with (t + 0) at 1 by ring.
  replace (t - pulsePeriod) with (t + - pulsePeriod) by ring.
  rewrite wrap32_gap. vm_compute. reflexivity.
Qed.

(** Of the edges of a whole frame of [S k] bits exactly [S k] are
    accepted. *)
Lemma sendData_count (s : State) (t : Z) (level : bool) (v : Z) (k : nat) :
  (k < 32)%nat ->
  Z.of_nat (S k) <= frameLength (bus s) ->
  bitCount (dec s) = 0 ->
  ignoreCount (dec s) = 0 ->
  tempData (dec s) = 0 ->
  lastEdge (dec s) = wrap32 (t - pulsePeriod) ->
  acceptedEdges (busEdges tx t level (sendData tx v (Z.of_nat (S k)))) s
  = S k.
Proof.
  intros Hk Hroom Hbits Hign Htemp Hsync.
  unfold sendData. rewrite Nat2Z.id.
  change (busEdges tx t level
            (NoInterrupts
             :: sendBits tx v (S k) ++ [DigitalWrite tx LOW; Interrupts]))
    with (busEdges tx t level
            (sendBits tx v (S k) ++ [DigitalWrite tx LOW; Interrupts])).
  rewrite frame_count; try assumption; try lia;
    try (rewrite Hbits; lia);
    try (rewrite Hbits, Htemp; change (2 ^ 0) with 1; lia).
  rewrite release_count; [lia|].
  rewrite dispatch_keeps_lastEdge. reflexivity.
Qed.

End Frames.

(** ** Round trip *)

(** C1, as the code has it.  Take a width [w] that is [addressWidth], or
    [dataWidth] on a controller, a value [v < 2 ^ w], and a decoder in reset
    state whose last edge came [pulsePeriod] before the frame starts (as
    the wake pulse of [requestOneWire] arranges before an address frame);
    the receive pin reads the complement of the transmit pin.  Of the edges of [sendData(v, w)] exactly [w] are
    accepted, and they shift in the [w] bits of [v], most significant
    first: the frame test of the [w]-th accepted edge finds a bit count of
    [w] and [v] in the shift register.  What the
    decoder holds when that invocation returns is what the role makes of
    the frame: a controller short of [dataWidth] bits keeps [v] in the
    register; a controller with [dataWidth] bits stores the sign extension
    of [v] as incoming payload, raises the flag and clears the register; a
    listener compares [v] with its address, answers or sets the ignore
    count, and clears the register. *)
Theorem sendData_frame_decoded
  (s : State) (tx t : Z) (level : bool) (w v : Z)
  (Hwidth : w = addressWidth
            \/ (w = dataWidth /\ oneWireListener (bus s) = false))
  (Hvalue : 0 <= v < 2 ^ w)
  (Hbits : bitCount (dec s) = 0)
  (Hign : ignoreCount (dec s) = 0)
  (Htemp : tempData (dec s) = 0)
  (Hsync : lastEdge (dec s) = wrap32 (t - pulsePeriod)) :
  let r := runEdges (busEdges tx t level (sendData tx v w)) s in
  acceptedEdges (busEdges tx t level (sendData tx v w)) s = Z.to_nat w
  /\ r = dispatch (framed s (wrap32 (t + w * bitPeriod - pulsePeriod)) w v)
  /\ (oneWireListener (bus s) = false -> w = addressWidth ->
      bitCount (dec (fst r)) = w
      /\ tempData (dec (fst r)) = v
      /\ snd r = [])
  /\ (oneWireListener (bus s) = false -> w = dataWidth ->
      oneWirePayloadIn (bus (fst r))
      = (if Z.testbit v (dataWidth - 1) then v - 2 ^ dataWidth else v)
      /\ oneWireMessageReceived (bus (fst r)) = true
      /\ bitCount (dec (fst r)) = 0
      /\ tempData (dec (fst r)) = 0)
  /\ (oneWireListener (bus s) = true ->
      (v = oneWireAddress (bus s) ->
       snd r = sendData (pinTX (bus s)) (wrap32 (oneWirePayloadOut (bus s)))
                        dataWidth
       /\ ignoreCount (dec (fst r)) = 0)
      /\ (v <> oneWireAddress (bus s) ->
          snd r = [] /\ ignoreCount (dec (fst r)) = dataWidth)
      /\ bitCount (dec (fst r)) = 0
      /\ tempData (dec (fst r)) = 0).
Proof.
  intros r.
  assert (Hroom : w <= frameLength (bus s)).
  { unfold frameLength. destruct Hwidth as [->|[-> Hrole]].
    - destruct (oneWireListener (bus s));
        [apply Z.le_refl|vm_compute; discriminate].
    - rewrite Hrole. apply Z.le_refl. }
  split.
  { destruct Hwidth as [->|[-> Hrole]].
    - change addressWidth with (Z.of_nat 4).
      rewrite sendData_count by (try assumption; lia). reflexivity.
    - change dataWidth with (Z.of_nat 24).
      rewrite sendData_count by (try assumption; lia). reflexivity. }
  assert (Hrun : r = dispatch
                       (framed s (wrap32 (t + w * bitPeriod - pulsePeriod))
                               w v)).
  { subst r. destruct Hwidth as [->|[-> Hrole]].
    - change addressWidth with (Z.of_nat 4).
      apply sendData_run; try assumption; lia.
    - change dataWidth with (Z.of_nat 24).
      apply sendData_run; try assumption; lia. }
  split; [exact Hrun|]. rewrite Hrun. clear Hrun r.
  unfold dispatch, framed, withDecoder.
  cbn [bus dec bitCount tempData ignoreCount lastEdge].
  split; [|split].
  - intros Hrole ->. rewrite Hrole.
    change (addressWidth =? dataWidth) with false.
    cbn [fst snd dec bitCount tempData]. auto.
  - intros Hrole ->. rewrite Hrole, Z.eqb_refl.
    cbn [fst snd bus dec bitCount tempData oneWirePayloadIn
         oneWireMessageReceived].
    split; [apply signExtend_spec; exact Hvalue|auto].
  - intros Hrole. rewrite Hrole.
    destruct Hwidth as [->|[_ Hctl]]; [|congruence].
    rewrite Z.eqb_refl.
    destruct (Z.eqb_spec v (oneWireAddress (bus s))) as [E|N];
      cbn [fst snd dec bitCount tempData ignoreCount].
    + split; [auto|]. split; [intros; contradiction|auto].
    + split; [intros; contradiction|]. split; auto.
Qed.

(** The wake pulse and address frame of [requestOneWire], on a line that
    was idle for longer than the frame timeout: the wake edge resets and
    synchronises the decoder, and the address reaches its frame test. *)
Lemma wake_then_address_decoded (s : State) (tx t v : Z) :
  2 * bitPeriod < edgeGap (wrap32 t) s ->
  0 <= v < 2 ^ addressWidth ->
  runEdges
    (busEdges tx t LOW
       ([NoInterrupts; DigitalWrite tx HIGH; DelayMicroseconds pulsePeriod]
        ++ sendData tx v addressWidth)) s
  = dispatch
      (framed s (wrap32 (t + pulsePeriod + addressWidth * bitPeriod
                         - pulsePeriod))
              addressWidth v).
Proof.
  intros Hidle Hv.
  cbn [app].
  change (busEdges tx t LOW
            (NoInterrupts
             :: DigitalWrite tx HIGH
             :: DelayMicroseconds pulsePeriod
             :: sendData tx v addressWidth))
    with (busEdges tx t LOW
            (DigitalWrite tx HIGH
             :: DelayMicroseconds pulsePeriod
             :: sendData tx v addressWidth)).
  rewrite busEdges_write.
  change (eqb HIGH LOW) with false. cbn iota.
  change (busEdges tx t HIGH
            (DelayMicroseconds pulsePeriod :: sendData tx v addressWidth))
    with (busEdges tx (t + pulsePeriod) HIGH (sendData tx v addressWidth)).
  rewrite runEdges_step, handle_timeout, andThen_silent by exact Hidle.
  change addressWidth with (Z.of_nat 4).
  rewrite sendData_run;
    unfold withDecoder; cbn [bus dec bitCount tempData ignoreCount lastEdge];
    try reflexivity; try assumption; try lia.
  - unfold frameLength. destruct (oneWireListener (bus s));
      [apply Z.le_refl|vm_compute; discriminate].
  - f_equal. ring.
Qed.

Lemma sendData_frame_decoded_witness :
  let s := mkState (mkBus 2 3 0 0 0 false false) (mkDecoder 975 0 0 0) in
  let r := runEdges (busEdges 7 1000 HIGH (sendData 7 16777116 24)) s in
  oneWirePayloadIn (bus (fst r)) = -100
  /\ oneWireMessageReceived (bus (fst r)) = true
  /\ bitCount (dec (fst r)) = 0
  /\ tempData (dec (fst r)) = 0.
Proof.
  intros s r.
  assert (Hv : 0 <= 16777116 < 2 ^ 24)
    by (split; [discriminate|reflexivity]).
  destruct (sendData_frame_decoded s 7 1000 HIGH 24 16777116
              (or_intror (conj eq_refl eq_refl)) Hv
              eq_refl eq_refl eq_refl eq_refl)
    as (_ & _ & _ & Hdata & _).
  exact (Hdata eq_refl eq_refl).
Defined.

(** C1, as the specification words it, fails: once the [w]-th accepted edge
    has been handled the shift register does not hold [v].  A controller
    that received [dataWidth] bits has moved the value to the incoming
    payload and cleared the register; a listener that received
    [addressWidth] bits has compared them and cleared the register; and a
    listener fed [dataWidth] bits treats the first [addressWidth] of them
    as an address and ignores the rest.  In these three the decoder is in
    reset state, synchronised [pulsePeriod] before the frame.  A decoder
    still in its start-up state, on a line that was idle, takes the first
    edge of the frame as the synchronisation edge and shifts in one bit
    fewer than were sent. *)
Lemma sendData_register_counterexample :
  tempData
    (dec (fst (runEdges (busEdges 7 1000 HIGH (sendData 7 8388609 dataWidth))
                 (mkState (mkBus 2 3 0 0 0 false false)
                          (mkDecoder 975 0 0 0)))))
  <> 8388609
  /\ tempData
       (dec (fst (runEdges (busEdges 7 1000 HIGH (sendData 7 5 addressWidth))
                    (mkState (mkBus 2 3 5 (-100) 0 false true)
                             (mkDecoder 975 0 0 0)))))
     <> 5
  /\ tempData
       (dec (fst (runEdges
                    (busEdges 7 1000 HIGH (sendData 7 8388609 dataWidth))
                    (mkState (mkBus 2 3 5 (-100) 0 false true)
                             (mkDecoder 975 0 0 0)))))
     <> 8388609
  /\ dec (fst (runEdges (busEdges 7 1000 LOW (sendData 7 8 addressWidth))
                 (initial (mkBus 2 3 0 0 0 false false))))
     = mkDecoder 1295 3 0 0.
Proof.
  vm_compute. repeat split; discriminate.
Qed.

(** * Further properties of the code *)

(** ** The transmitter *)

Lemma sendBits_agree (tx d d' : Z) (i : nat) :
  (i <= 32)%nat ->
  (forall j, 0 <= j < Z.of_nat i -> Z.testbit d j = Z.testbit d' j) ->
  sendBits tx d i = sendBits tx d' i.
Proof.
  induction i as [|i IH]; intros Hi Hbits; [reflexivity|].
  cbn [sendBits]. rewrite !currentBit_testbit by lia.
  rewrite (Hbits (Z.of_nat i)) by lia.
  rewrite IH; [reflexivity|lia|].
  intros j Hj. apply Hbits. lia.
Qed.

Lemma sendData_mod (tx data width : Z) :
  0 <= width <= 32 ->
  sendData tx data width = sendData tx (data mod 2 ^ width) width.
Proof.
  intros Hwidth. unfold sendData. f_equal. f_equal.
  apply sendBits_agree; [lia|].
  intros j Hj. rewrite Z2Nat.id in Hj by lia.
  symmetry. apply Z.mod_pow2_bits_low. lia.
Qed.

(** X1. [sendData(data, width)] puts only the low [width] bits of [data]
    on the line: for a width up to 32 the calls it makes are those for
    [data mod 2 ^ width]. *)
Theorem sendData_sends_low_bits (tx data width : Z)
  (Hwidth : 0 <= width <= 32) :
  sendData tx data width = sendData tx (data mod 2 ^ width) width.
Proof.
  apply sendData_mod, Hwidth.
Qed.

Lemma sendData_sends_low_bits_witness :
  sendData 3 4294967196 24 = sendData 3 (4294967196 mod 2 ^ 24) 24.
Proof.
  apply (sendData_sends_low_bits 3 4294967196 24).
  split; discriminate.
Defined.

Lemma duration_app (tr1 tr2 : Trace) :
  duration (tr1 ++ tr2) = duration tr1 + duration tr2.
Proof.
  induction tr1 as [|e rest IH]; [reflexivity|].
  destruct e; cbn [app duration]; rewrite IH; ring.
Qed.

Lemma sendBits_duration (tx data : Z) (i : nat) :
  duration (sendBits tx data i) = Z.of_nat i * bitPeriod.
Proof.
  induction i as [|i IH]; [reflexivity|].
  cbn [sendBits duration]. rewrite IH, Nat2Z.inj_succ. ring.
Qed.

(** X2. [sendData] holds its caller for [width * bitPeriod] microseconds
    of delay, whatever the data; the handler, which calls it on an address
    match, either transmits nothing or stays in the interrupt for
    [dataWidth * bitPeriod] microseconds. *)
Theorem sendData_blocks_for_width_bit_periods
  (tx data width : Z) (Hwidth : 0 <= width) :
  duration (sendData tx data width) = width * bitPeriod
  /\ forall present reading s,
      let out := snd (handleOneWireInput present reading s) in
      out = [] \/ duration out = dataWidth * bitPeriod.
Proof.
  assert (Hsend : forall w, 0 <= w ->
            duration (sendData tx data w) = w * bitPeriod).
  { intros w Hw. unfold sendData. cbn [duration].
    rewrite duration_app, sendBits_duration, Z2Nat.id by exact Hw.
    cbn [duration]. ring. }
  split; [apply Hsend, Hwidth|].
  intros present reading s out. subst out.
  unfold handleOneWireInput.
  destruct (edgeGap present s <? 3 * pulsePeriod); [left; reflexivity|].
  destruct (edgeGap present s >? 2 * bitPeriod); [left; reflexivity|].
  destruct (negb (ignoreCount (dec s) =? 0)); [left; reflexivity|].
  unfold dispatch.
  repeat match goal with
         | |- context [if ?c then _ else _] => destruct c
         end; cbn [snd]; try (left; reflexivity).
  right. unfold sendData. cbn [duration].
  rewrite duration_app, sendBits_duration. reflexivity.
Qed.

Lemma sendData_blocks_for_width_bit_periods_witness :
  duration (sendData 3 5 4) = 4 * bitPeriod.
Proof.
  apply (sendData_blocks_for_width_bit_periods 3 5 4).
  discriminate.
Defined.

(** ** What the handler leaves alone *)

Lemma handle_keeps_config (present : Z) (reading : bool) (s : State) :
  let s' := fst (handleOneWireInput present reading s) in
  pinRX (bus s') = pinRX (bus s)
  /\ pinTX (bus s') = pinTX (bus s)
  /\ oneWireAddress (bus s') = oneWireAddress (bus s)
  /\ oneWirePayloadOut (bus s') = oneWirePayloadOut (bus s)
  /\ oneWireListener (bus s') = oneWireListener (bus s)
  /\ (oneWireListener (bus s) = true -> bus s' = bus s).
Proof.
  unfold handleOneWireInput.
  destruct (edgeGap present s <? 3 * pulsePeriod); [cbn; auto 10|].
  destruct (edgeGap present s >? 2 * bitPeriod); [cbn; auto 10|].
  destruct (negb (ignoreCount (dec s) =? 0)); [cbn; auto 10|].
  unfold dispatch, shiftIn, withDecoder.
  cbn [bus dec bitCount tempData ignoreCount lastEdge].
  destruct (oneWireListener (bus s)) eqn:Hrole;
    repeat match goal with
           | |- context [if ?c then _ else _] => destruct c
           end;
    cbn [fst bus pinRX pinTX oneWireAddress oneWirePayloadOut
         oneWireListener];
    repeat split; auto; discriminate.
Qed.

(** X3. Whatever edges arrive, the handler never changes the pins, the
    address, the outgoing payload or the role of the node; on a listener it
    changes no bus register at all: neither the incoming payload nor the
    received flag. *)
Theorem handler_keeps_configuration (es : list Edge) (s : State) :
  let s' := fst (runEdges es s) in
  pinRX (bus s') = pinRX (bus s)
  /\ pinTX (bus s') = pinTX (bus s)
  /\ oneWireAddress (bus s') = oneWireAddress (bus s)
  /\ oneWirePayloadOut (bus s') = oneWirePayloadOut (bus s)
  /\ oneWireListener (bus s') = oneWireListener (bus s)
  /\ (oneWireListener (bus s) = true -> bus s' = bus s).
Proof.
  revert s. induction es as [|[t r] rest IH]; intros s.
  - cbn. auto 10.
  - cbn zeta. rewrite runEdges_cons.
    destruct (handle_keeps_config t r s) as (H1 & H2 & H3 & H4 & H5 & H6).
    destruct (IH (fst (handleOneWireInput t r s)))
      as (I1 & I2 & I3 & I4 & I5 & I6).
    cbn zeta in *.
    repeat split; try congruence.
    intros Hrole. rewrite I6 by congruence. apply H6, Hrole.
Qed.

Lemma handler_keeps_configuration_witness :
  bus (fst (runEdges
              (map (fun k => (1000 + 80 * Z.of_nat k, true)) (seq 1 40))
              (mkState (mkBus 2 3 5 (-100) 7 false true)
                       (mkDecoder 1000 0 0 0))))
  = mkBus 2 3 5 (-100) 7 false true.
Proof.
  apply (handler_keeps_configuration
           (map (fun k => (1000 + 80 * Z.of_nat k, true)) (seq 1 40))
           (mkState (mkBus 2 3 5 (-100) 7 false true)
                    (mkDecoder 1000 0 0 0))).
  reflexivity.
Defined.

(** X4. A controller's handler never drives the line, whatever state it is
    in and whatever edges arrive, and it never starts to ignore edges: an
    ignore count of zero stays zero. *)
Theorem controller_handler_never_transmits (es : list Edge) (s : State)
  (Hrole : oneWireListener (bus s) = false) :
  snd (runEdges es s) = []
  /\ (ignoreCount (dec s) = 0 ->
      ignoreCount (dec (fst (runEdges es s))) = 0).
Proof.
  revert s Hrole. induction es as [|[t r] rest IH]; intros s Hrole.
  - cbn. auto.
  - assert (Hstep : snd (handleOneWireInput t r s) = []
                    /\ (ignoreCount (dec s) = 0 ->
                        ignoreCount
                          (dec (fst (handleOneWireInput t r s))) = 0)).
    { unfold handleOneWireInput.
      destruct (edgeGap t s <? 3 * pulsePeriod); [cbn; auto|].
      destruct (edgeGap t s >? 2 * bitPeriod); [cbn; auto|].
      destruct (Z.eqb_spec (ignoreCount (dec s)) 0) as [Hz|Hnz]; cbn [negb];
        [|cbn; split; [reflexivity|intros; contradiction]].
      unfold dispatch, shiftIn, withDecoder.
      cbn [bus dec bitCount tempData ignoreCount lastEdge].
      rewrite Hrole.
      destruct (_ =? dataWidth); cbn; auto. }
    destruct Hstep as [Hout Hign].
    pose proof (handle_keeps_role t r s) as Hkeep.
    destruct (IH (fst (handleOneWireInput t r s))) as [IHout IHign];
      [congruence|].
    rewrite runEdges_cons. split.
    + cbn [runEdges].
      destruct (handleOneWireInput t r s) as [s1 o1]. cbn [fst snd] in *.
      destruct (runEdges rest s1) as [s2 o2]. cbn [fst snd] in *.
      subst. reflexivity.
    + intros Hz. apply IHign, Hign, Hz.
Qed.

Lemma controller_handler_never_transmits_witness :
  snd (runEdges
         (map (fun k => (1000 + 80 * Z.of_nat k, true)) (seq 1 60))
         (mkState (mkBus 2 3 5 (-100) 0 false false)
                  (mkDecoder 1000 0 0 0)))
  = [].
Proof.
  apply (controller_handler_never_transmits
           (map (fun k => (1000 + 80 * Z.of_nat k, true)) (seq 1 60))
           (mkState (mkBus 2 3 5 (-100) 0 false false)
                    (mkDecoder 1000 0 0 0))
           eq_refl).
Defined.

(** ** Addresses a listener can answer to *)

Lemma runEdges_output_cons (t : Z) (r : bool) (rest : list Edge) (s : State) :
  snd (runEdges ((t, r) :: rest) s)
  = snd (handleOneWireInput t r s)
    ++ snd (runEdges rest (fst (handleOneWireInput t r s))).
Proof.
  cbn [runEdges]. destruct (handleOneWireInput t r s) as [s1 o1].
  cbn [fst snd]. destruct (runEdges rest s1). reflexivity.
Qed.

Lemma wide_address_step (present : Z) (reading : bool) (s : State) :
  decoderInv s ->
  oneWireListener (bus s) = true ->
  2 ^ addressWidth <= oneWireAddress (bus s) ->
  snd (handleOneWireInput present reading s) = [].
Proof.
  intros (Hbits & Htemp & _) Hrole Hwide.
  unfold frameLength in Hbits. rewrite Hrole in Hbits.
  unfold addressWidth in *.
  unfold handleOneWireInput.
  destruct (edgeGap present s <? 3 * pulsePeriod); [reflexivity|].
  destruct (edgeGap present s >? 2 * bitPeriod); [reflexivity|].
  destruct (negb (ignoreCount (dec s) =? 0)); [reflexivity|].
  destruct (shifted_range (tempData (dec s)) (bitCount (dec s)) reading)
    as (Hsh & Hrng & _); [lia|exact Htemp|].
  unfold dispatch, shiftIn, withDecoder.
  cbn [bus dec bitCount tempData ignoreCount lastEdge].
  rewrite Hrole, Hsh, wrap8_small by lia.
  destruct (Z.eqb_spec (bitCount (dec s) + 1) addressWidth) as [E|N];
    [|reflexivity].
  unfold addressWidth in E.
  replace (bitCount (dec s) + 1) with 4 in Hrng by lia.
  destruct (Z.eqb_spec (2 * tempData (dec s) + Z.b2z reading)
              (oneWireAddress (bus s))) as [Heq|Hne]; [|reflexivity].
  lia.
Qed.

(** X5. The address is an 8-bit value, the address frame has [addressWidth]
    bits.  A listener configured with an address of [2 ^ addressWidth] or
    more never answers: from start-up on, whatever edges arrive, its
    handler transmits nothing. *)
Theorem listener_with_wide_address_never_answers
  (b : Bus) (es : list Edge)
  (Hrole : oneWireListener b = true)
  (Hwide : 2 ^ addressWidth <= oneWireAddress b) :
  snd (runEdges es (initial b)) = [].
Proof.
  assert (Hgen : forall s,
            decoderInv s ->
            oneWireListener (bus s) = true ->
            2 ^ addressWidth <= oneWireAddress (bus s) ->
            snd (runEdges es s) = []).
  { induction es as [|[t r] rest IH]; intros s Hinv Hr Hw; [reflexivity|].
    rewrite runEdges_output_cons.
    rewrite (wide_address_step t r s Hinv Hr Hw). cbn [app].
    destruct (handle_keeps_config t r s) as (_ & _ & Haddr & _ & Hkeep & _).
    cbn zeta in Haddr, Hkeep.
    apply IH; [apply handle_preserves_inv, Hinv|congruence|congruence]. }
  apply Hgen; [apply initial_inv|exact Hrole|exact Hwide].
Qed.

Lemma listener_with_wide_address_never_answers_witness :
  snd (runEdges
         ((1000, true)
          :: map (fun k => (1000 + 80 * Z.of_nat k, Nat.even k)) (seq 1 8))
         (initial (mkBus 2 3 21 (-100) 0 false true)))
  = [].
Proof.
  apply (listener_with_wide_address_never_answers
           (mkBus 2 3 21 (-100) 0 false true)
           ((1000, true)
            :: map (fun k => (1000 + 80 * Z.of_nat k, Nat.even k)) (seq 1 8))
           eq_refl).
  discriminate.
Defined.

(** ** Ranges of the decoder *)

(** X6. On a node run from start-up the shift register never overflows and
    the ignore count never underflows: before every invocation the
    register is below [2 ^ bitCount], hence below [2 ^ 23]; shifting one
    more bit in loses nothing in 32 bits; and the ignore count lies in
    [[0, dataWidth]]. *)
Theorem decoder_never_overflows (b : Bus) (es : list Edge) (reading : bool) :
  let s := fst (runEdges es (initial b)) in
  0 <= tempData (dec s) < 2 ^ bitCount (dec s)
  /\ tempData (dec s) < 2 ^ 23
  /\ wrap32 (Z.shiftl (tempData (dec s)) 1 + Z.b2z reading)
     = 2 * tempData (dec s) + Z.b2z reading
  /\ 0 <= ignoreCount (dec s) <= dataWidth.
Proof.
  intros s.
  destruct (runEdges_inv es (initial b) (initial_inv b))
    as [(Hbits & Htemp & Hign) _].
  fold s in Hbits, Htemp, Hign.
  pose proof (frameLength_bound (bus s)) as Hfl. unfold dataWidth in Hfl.
  destruct (shifted_range (tempData (dec s)) (bitCount (dec s)) reading)
    as (Hsh & _ & _); [lia|exact Htemp|].
  assert (Hpow : 2 ^ bitCount (dec s) <= 2 ^ 23)
    by (apply Z.pow_le_mono_r; lia).
  repeat split; try lia; assumption.
Qed.

(** ** Recovery *)

Lemma late_edge_restores_inv (present : Z) (reading : bool) (s : State) :
  2 * bitPeriod < edgeGap present s ->
  decoderInv (fst (handleOneWireInput present reading s)).
Proof.
  intros Hlate. rewrite handle_timeout by exact Hlate.
  pose proof (frameLength_bound (bus s)) as Hfl.
  unfold decoderInv, withDecoder, dataWidth in *.
  cbn [fst bus dec bitCount tempData ignoreCount].
  change (2 ^ 0) with 1. lia.
Qed.

(** X7. [setupOneWire] sets the pins, the address and the role and leaves
    the statics of the handler as they are, so a node that is configured
    again, possibly in the other role, may hold a bit count that its new
    role never compares with.  The first edge that comes later than
    [2 * bitPeriod] after the last one repairs this from any state: from
    then on the bit count stays below the frame length of the role, the
    shift register below [2 ^ bitCount] and the ignore count within
    [[0, dataWidth]]. *)
Theorem late_edge_recovers_after_setup
  (nano : bool) (PCIE RX TX address : Z) (isListener : bool)
  (s : State) (present : Z) (reading : bool) (es : list Edge)
  (Hlate : 2 * bitPeriod
           < edgeGap present
               (fst (setupOneWire nano PCIE RX TX address isListener s))) :
  let configured := fst (setupOneWire nano PCIE RX TX address isListener s) in
  let s' := fst (runEdges es
                   (fst (handleOneWireInput present reading configured))) in
  dec configured = dec s
  /\ oneWireListener (bus s') = isListener
  /\ 0 <= bitCount (dec s') < (if isListener then addressWidth else dataWidth)
  /\ 0 <= tempData (dec s') < 2 ^ bitCount (dec s')
  /\ 0 <= ignoreCount (dec s') <= dataWidth.
Proof.
  intros configured s'.
  split; [reflexivity|].
  pose proof (late_edge_restores_inv present reading configured Hlate)
    as Hinv.
  destruct (runEdges_inv es _ Hinv) as [(Hbits & Htemp & Hign) Hrole].
  fold s' in Hbits, Htemp, Hign, Hrole.
  rewrite handle_keeps_role in Hrole.
  change (oneWireListener (bus configured)) with isListener in Hrole.
  unfold frameLength in Hbits. rewrite Hrole in Hbits.
  auto.
Qed.

Lemma late_edge_recovers_after_setup_witness :
  let s' :=
    fst (runEdges [(5080, true); (5160, false)]
           (fst (handleOneWireInput 5000 true
                   (fst (setupOneWire false 5 2 3 5 true
                           (mkState (mkBus 2 3 0 0 0 false false)
                                    (mkDecoder 1000 17 0 70000)))))))
  in
  0 <= bitCount (dec s') < addressWidth.
Proof.
  intros s'.
  assert (Hlate : 2 * bitPeriod
                  < edgeGap 5000
                      (fst (setupOneWire false 5 2 3 5 true
                              (mkState (mkBus 2 3 0 0 0 false false)
                                       (mkDecoder 1000 17 0 70000)))))
    by reflexivity.
  exact (proj1 (proj2 (proj2
           (late_edge_recovers_after_setup false 5 2 3 5 true
              (mkState (mkBus 2 3 0 0 0 false false)
                       (mkDecoder 1000 17 0 70000))
              5000 true [(5080, true); (5160, false)] Hlate)))).
Defined.

(** ** The clock of the handler *)

(** X8. The gap of an edge is computed on 32-bit clock values.  An edge
    that comes [d] microseconds after the last accepted one, with
    [d < 2 ^ 32], has gap [d] even when [micros()] overflowed in between;
    an edge that comes [2 ^ 32] microseconds later still has the same
    gap. *)
Theorem edge_gap_is_elapsed_time_mod_2_32 (s : State) (t0 d : Z)
  (Hlast : lastEdge (dec s) = wrap32 t0)
  (Hd : 0 <= d < 2 ^ 32) :
  edgeGap (wrap32 (t0 + d)) s = d
  /\ edgeGap (wrap32 (t0 + d + 2 ^ 32)) s = d.
Proof.
  assert (Hgap : edgeGap (wrap32 (t0 + d)) s = d).
  { unfold edgeGap. rewrite Hlast.
    replace t0 with (t0 + 0) at 2 by ring.
    rewrite wrap32_gap, Z.sub_0_r. apply wrap32_small, Hd. }
  split; [exact Hgap|].
  rewrite <- Hgap at 2. f_equal.
  unfold wrap32.
  replace (t0 + d + 2 ^ 32) with (t0 + d + 1 * 2 ^ 32) by ring.
  apply Z.mod_add. discriminate.
Qed.

Lemma edge_gap_is_elapsed_time_mod_2_32_witness :
  edgeGap (wrap32 (4294967290 + 80))
          (mkState (mkBus 2 3 0 0 0 false false)
                   (mkDecoder 4294967290 3 0 5))
  = 80.
Proof.
  apply (edge_gap_is_elapsed_time_mod_2_32
           (mkState (mkBus 2 3 0 0 0 false false)
                    (mkDecoder 4294967290 3 0 5))
           4294967290 80 eq_refl).
  split; [discriminate|reflexivity].
Defined.

(** ** Decoding any source of bits *)

Lemma andThen_nil (r : State * Trace) : andThen r [] = r.
Proof.
  unfold andThen. cbn [runEdges fst snd]. rewrite app_nil_r.
  destruct r; reflexivity.
Qed.

(** A run of edges in the window, as many as the frame has room for. *)
Lemma decode_run (es : list Edge) :
  forall s,
    es <> [] ->
    ignoreCount (dec s) = 0 ->
    0 <= bitCount (dec s) ->
    bitCount (dec s) + Z.of_nat (length es) <= frameLength (bus s) ->
    0 <= tempData (dec s) < 2 ^ bitCount (dec s) ->
    spacedInWindow (lastEdge (dec s)) es ->
    runEdges es s
    = dispatch
        (framed s (lastTime (lastEdge (dec s)) es)
                (bitCount (dec s) + Z.of_nat (length es))
                (bitsValue (tempData (dec s)) (map snd es))).
Proof.
  induction es as [|[t r] rest IH]; intros s Hne Hign Hc Hroom Hd Hsp;
    [contradiction|].
  pose proof (frameLength_bound (bus s)) as Hfl. unfold dataWidth in Hfl.
  cbn [length] in Hroom. rewrite Nat2Z.inj_succ in Hroom.
  destruct Hsp as [Hwin Hrest].
  rewrite runEdges_step, handle_bit by (assumption || exact Hwin).
  rewrite slot_state by (try assumption; lia).
  destruct (shifted_range (tempData (dec s)) (bitCount (dec s)) r)
    as (_ & Hrng & _); [lia|exact Hd|].
  cbn [map snd bitsValue lastTime length].
  destruct rest as [|e rest'].
  - rewrite andThen_nil. cbn [length lastTime map bitsValue].
    change (Z.of_nat 1) with 1. reflexivity.
  - rewrite dispatch_incomplete
      by (unfold framed, withDecoder; cbn [bus dec bitCount];
          cbn [length] in Hroom; lia).
    rewrite andThen_silent.
    rewrite IH;
      unfold framed, withDecoder;
      cbn [bus dec bitCount tempData ignoreCount lastEdge];
      try assumption; try reflexivity; try discriminate; try lia.
    rewrite Nat2Z.inj_succ.
    replace (bitCount (dec s) + 1 + Z.of_nat (length (e :: rest')))
      with (bitCount (dec s) + Z.succ (Z.of_nat (length (e :: rest'))))
      by lia.
    reflexivity.
Qed.

(** X9. The decoder does not depend on who drives the line.  From reset
    state, edges that each come within the window after the one before, as
    many as the frame of the role has bits, give the frame test the number
    that the sampled levels spell, first level most significant.  A
    controller stores its sign extension and raises the flag; a listener
    transmits exactly when that number is its address. *)
Theorem frame_value_is_sampled_levels (s : State) (es : list Edge)
  (Hbits : bitCount (dec s) = 0)
  (Hign : ignoreCount (dec s) = 0)
  (Htemp : tempData (dec s) = 0)
  (Hlen : Z.of_nat (length es) = frameLength (bus s))
  (Hsp : spacedInWindow (lastEdge (dec s)) es) :
  let value := bitsValue 0 (map snd es) in
  let r := runEdges es s in
  r = dispatch
        (framed s (lastTime (lastEdge (dec s)) es) (frameLength (bus s))
                value)
  /\ (oneWireListener (bus s) = false ->
      oneWirePayloadIn (bus (fst r)) = signExtend value
      /\ oneWireMessageReceived (bus (fst r)) = true)
  /\ (oneWireListener (bus s) = true ->
      (value = oneWireAddress (bus s) ->
       snd r = sendData (pinTX (bus s)) (wrap32 (oneWirePayloadOut (bus s)))
                        dataWidth)
      /\ (value <> oneWireAddress (bus s) -> snd r = [])).
Proof.
  intros value r.
  pose proof (frameLength_bound (bus s)) as Hfl.
  assert (Hrun : r = dispatch
                       (framed s (lastTime (lastEdge (dec s)) es)
                               (frameLength (bus s)) value)).
  { subst r value. rewrite decode_run; try assumption.
    - rewrite Hbits, Htemp, Z.add_0_l, Hlen. reflexivity.
    - intros ->. cbn in Hlen. lia.
    - lia.
    - rewrite Hbits, Hlen. lia.
    - rewrite Hbits, Htemp. change (2 ^ 0) with 1. lia. }
  split; [exact Hrun|]. rewrite Hrun.
  unfold dispatch, framed, withDecoder, frameLength.
  cbn [bus dec bitCount tempData ignoreCount lastEdge].
  split.
  - intros Hrole. rewrite Hrole, Z.eqb_refl. cbn. auto.
  - intros Hrole. rewrite Hrole, Z.eqb_refl.
    destruct (Z.eqb_spec value (oneWireAddress (bus s))) as [E|N];
      cbn [snd]; split; intros; try reflexivity; contradiction.
Qed.

Lemma frame_value_is_sampled_levels_witness :
  snd (runEdges [(1080, false); (1160, true); (1240, false); (1320, true)]
         (mkState (mkBus 2 3 5 (-100) 0 false true) (mkDecoder 1000 0 0 0)))
  = sendData 3 (wrap32 (-100)) dataWidth.
Proof.
  pose (s := mkState (mkBus 2 3 5 (-100) 0 false true)
                     (mkDecoder 1000 0 0 0)).
  pose (es := [(1080, false); (1160, true); (1240, false); (1320, true)]).
  assert (Hsp : spacedInWindow (lastEdge (dec s)) es)
    by (vm_compute; repeat split; discriminate).
  destruct (frame_value_is_sampled_levels s es
              eq_refl eq_refl eq_refl eq_refl Hsp) as (_ & _ & Hlistener).
  destruct (Hlistener eq_refl) as [Hmatch _].
  exact (Hmatch eq_refl).
Defined.

(** ** Twenty-four bits of payload *)

Lemma low24_of_wrap32 (v : Z) : wrap32 v mod 2 ^ 24 = v mod 2 ^ 24.
Proof.
  unfold wrap32. apply Z.mod_mod_divide.
  exists (2 ^ 8). reflexivity.
Qed.

Lemma signExtend_mod24 (v : Z) :
  signExtend (v mod 2 ^ 24) = signed24 v.
Proof.
  pose proof (Z.mod_pos_bound v (2 ^ 24) eq_refl) as Hp.
  rewrite signExtend_spec by exact Hp.
  unfold dataWidth, signed24. change (24 - 1) with 23.
  rewrite (testbit_top (v mod 2 ^ 24) 23) by (change (23 + 1) with 24; lia).
  pose proof (Z.div_mod v (2 ^ 24)) as Hdm.
  destruct (Z.leb_spec (2 ^ 23) (v mod 2 ^ 24)) as [Hge|Hlt].
  - rewrite <- (Z.mod_unique (v + 2 ^ 23) (2 ^ 24) (v / 2 ^ 24 + 1)
                    (v mod 2 ^ 24 - 2 ^ 23)); lia.
  - rewrite <- (Z.mod_unique (v + 2 ^ 23) (2 ^ 24) (v / 2 ^ 24)
                    (v mod 2 ^ 24 + 2 ^ 23)); lia.
Qed.

Lemma signExtend_low24 (v : Z) :
  signExtend (wrap32 v mod 2 ^ 24) = signed24 v.
Proof.
  rewrite low24_of_wrap32. apply signExtend_mod24.
Qed.

Lemma signed24_in_range (v : Z) :
  - 2 ^ 23 <= v < 2 ^ 23 -> signed24 v = v.
Proof.
  intros Hv. unfold signed24. rewrite Z.mod_small; lia.
Qed.

(** X10. The payload survives the 24-bit frame when it fits: the low 24
    bits that [sendData] takes from a payload [v], sign-extended as the
    controller does on reception, give back [v] for
    [- 2 ^ 23 <= v < 2 ^ 23].  A payload outside this range comes back
    reduced modulo [2 ^ 24] into it. *)
Theorem payload_truncated_to_24_bits (v : Z) :
  signExtend (wrap32 v mod 2 ^ dataWidth) = signed24 v
  /\ - 2 ^ 23 <= signed24 v < 2 ^ 23
  /\ (- 2 ^ 23 <= v < 2 ^ 23 -> signExtend (wrap32 v mod 2 ^ dataWidth) = v).
Proof.
  split; [apply signExtend_low24|]. split.
  - unfold signed24.
    pose proof (Z.mod_pos_bound (v + 2 ^ 23) (2 ^ 24) eq_refl). lia.
  - intros Hv. unfold dataWidth.
    rewrite signExtend_low24. apply signed24_in_range, Hv.
Qed.

Lemma payload_truncated_to_24_bits_witness :
  signExtend (wrap32 (-100) mod 2 ^ dataWidth) = -100.
Proof.
  apply (payload_truncated_to_24_bits (-100)).
  split; [discriminate|reflexivity].
Defined.

(** ** The address of a request *)

(** X12. [requestOneWire] polls by the low [addressWidth] bits of its
    argument only: a target address and the same address reduced modulo
    [2 ^ addressWidth] give the same events and the same outcome, so
    targets 5 and 21 are the same device. *)
Theorem request_address_taken_mod_16 (targetAdd : Z) (env : Env) (s : State) :
  requestOneWire targetAdd env s
  = requestOneWire (targetAdd mod 2 ^ addressWidth) env s.
Proof.
  unfold requestOneWire.
  assert (Hlow : wrap32 targetAdd mod 2 ^ addressWidth
                 = targetAdd mod 2 ^ addressWidth).
  { unfold wrap32. apply Z.mod_mod_divide. exists (2 ^ 28). reflexivity. }
  assert (Hsmall : wrap32 (targetAdd mod 2 ^ addressWidth)
                   = targetAdd mod 2 ^ addressWidth).
  { apply wrap32_small.
    pose proof (Z.mod_pos_bound targetAdd (2 ^ addressWidth) eq_refl) as Hb.
    change (2 ^ addressWidth) with 16 in *. lia. }
  rewrite (sendData_mod _ (wrap32 targetAdd) addressWidth)
    by (unfold addressWidth; lia).
  rewrite Hlow, Hsmall. reflexivity.
Qed.

(** ** Interrupts after the calls *)

Lemma interruptsAfter_app (b : bool) (tr1 tr2 : Trace) :
  interruptsAfter b (tr1 ++ tr2)
  = interruptsAfter (interruptsAfter b tr1) tr2.
Proof.
  revert b. induction tr1 as [|e rest IH]; intros b; [reflexivity|].
  destruct e; cbn [app interruptsAfter]; apply IH.
Qed.

Lemma sendBits_interrupts (tx data : Z) (i : nat) (b : bool) :
  interruptsAfter b (sendBits tx data i) = b.
Proof.
  induction i as [|i IH]; [reflexivity|].
  cbn [sendBits interruptsAfter]. exact IH.
Qed.

Lemma sendData_interrupts (tx data width : Z) (b : bool) :
  interruptsAfter b (sendData tx data width) = true.
Proof.
  unfold sendData. cbn [interruptsAfter].
  rewrite interruptsAfter_app, sendBits_interrupts. reflexivity.
Qed.

Lemma handle_output_shape (present : Z) (reading : bool) (s : State) :
  snd (handleOneWireInput present reading s) = []
  \/ snd (handleOneWireInput present reading s)
     = sendData (pinTX (bus s)) (wrap32 (oneWirePayloadOut (bus s)))
                dataWidth.
Proof.
  unfold handleOneWireInput.
  destruct (edgeGap present s <? 3 * pulsePeriod); [left; reflexivity|].
  destruct (edgeGap present s >? 2 * bitPeriod); [left; reflexivity|].
  destruct (negb (ignoreCount (dec s) =? 0)); [left; reflexivity|].
  unfold dispatch, shiftIn, withDecoder.
  cbn [bus dec bitCount tempData ignoreCount lastEdge].
  repeat match goal with
         | |- context [if ?c then _ else _] => destruct c
         end; cbn [snd]; auto.
Qed.

Lemma runEdges_interrupts (es : list Edge) :
  forall s, interruptsAfter true (snd (runEdges es s)) = true.
Proof.
  induction es as [|[t r] rest IH]; intros s; [reflexivity|].
  rewrite runEdges_output_cons, interruptsAfter_app.
  destruct (handle_output_shape t r s) as [-> | ->].
  - cbn [interruptsAfter]. apply IH.
  - rewrite sendData_interrupts. apply IH.
Qed.

Lemma waitLoop_interrupts (mark : Z) (ps : list Poll) :
  forall s s1 out n,
    waitLoop mark ps s = Some (s1, out, n) ->
    interruptsAfter true out = true.
Proof.
  induction ps as [|p rest IH]; intros s s1 out n Hrun; [discriminate|].
  cbn [waitLoop] in Hrun.
  pose proof (runEdges_interrupts (isr p) s) as Hisr.
  destruct (runEdges (isr p) s) as [s' out']. cbn [snd] in Hisr.
  destruct (negb (oneWireMessageReceived (bus s')) && (clock p <? mark)).
  - destruct (waitLoop mark rest s') as [[[s2 out2] m]|] eqn:Hrest;
      [|discriminate].
    injection Hrun as <- <- <-.
    rewrite interruptsAfter_app, Hisr. apply (IH _ _ _ _ Hrest).
  - injection Hrun as <- <- <-. exact Hisr.
Qed.

(** X13. Interrupts are enabled when [requestOneWire] returns, whether
    they were before the call or not, and whatever the handler transmitted
    meanwhile; and a handler that transmits leaves its interrupt with
    interrupts enabled. *)
Theorem request_leaves_interrupts_enabled
  (targetAdd : Z) (env : Env) (s : State) :
  (forall o enabled,
      requestOneWire targetAdd env s = Some o ->
      interruptsAfter enabled (output o) = true)
  /\ (forall present reading enabled,
        snd (handleOneWireInput present reading s) <> [] ->
        interruptsAfter enabled (snd (handleOneWireInput present reading s))
        = true).
Proof.
  split.
  - intros o enabled Hrun. unfold requestOneWire in Hrun.
    destruct (waitLoop (timeoutMark env) (polls env) s)
      as [[[s1 out1] n]|] eqn:Hwait; [|discriminate].
    pose proof (runEdges_interrupts (lastIsr env) s1) as Hlast.
    destruct (runEdges (lastIsr env) s1) as [s2 out2]. cbn [snd] in Hlast.
    assert (Ho : output o
                 = [NoInterrupts; DigitalWrite (pinTX (bus s)) HIGH;
                    DelayMicroseconds pulsePeriod]
                   ++ sendData (pinTX (bus s)) (wrap32 targetAdd)
                               addressWidth
                   ++ out1 ++ out2 ++ [DigitalWrite 13 HIGH])
      by (injection Hrun as <-; reflexivity).
    rewrite Ho, interruptsAfter_app. cbn [interruptsAfter].
    rewrite interruptsAfter_app, sendData_interrupts.
    rewrite interruptsAfter_app, (waitLoop_interrupts _ _ _ _ _ _ Hwait).
    rewrite interruptsAfter_app, Hlast. reflexivity.
  - intros present reading enabled Hout.
    destruct (handle_output_shape present reading s) as [E|E].
    + contradiction.
    + rewrite E. apply sendData_interrupts.
Qed.

Lemma request_leaves_interrupts_enabled_witness :
  exists o,
    requestOneWire 5
      (mkEnv 100 [mkPoll [] 100; mkPoll [] 110] [])
      (mkState (mkBus 2 3 0 0 0 false false) (mkDecoder 0 0 0 0))
    = Some o
    /\ interruptsAfter false (output o) = true.
Proof.
  eexists. split; [reflexivity|].
  exact (proj1 (request_leaves_interrupts_enabled 5
                  (mkEnv 100 [mkPoll [] 100; mkPoll [] 110] [])
                  (mkState (mkBus 2 3 0 0 0 false false)
                           (mkDecoder 0 0 0 0)))
               _ false eq_refl).
Defined.

(** ** A message that was already waiting *)

(** X14. [requestOneWire] does not clear the received flag before it
    polls.  When a message is pending at the call, the wait loop runs zero
    times whatever the clock and the target address, and the call delivers
    the incoming payload: the pending one, when no edge is served
    meanwhile. *)
Theorem request_returns_pending_message
  (targetAdd : Z) (env : Env) (s : State) (p : Poll) (rest : list Poll)
  (Hpending : oneWireMessageReceived (bus s) = true)
  (Hpolls : polls env = p :: rest) :
  exists o,
    requestOneWire targetAdd env s = Some o
    /\ iterations o = O
    /\ received o = true
    /\ destination o = oneWirePayloadIn (bus (final o))
    /\ (isr p = [] -> lastIsr env = [] ->
        destination o = oneWirePayloadIn (bus s)).
Proof.
  unfold requestOneWire. rewrite Hpolls. cbn [waitLoop].
  pose proof (runEdges_keeps_flag (isr p) s Hpending) as Hflag.
  destruct (runEdges (isr p) s) as [s1 out1] eqn:Hisr. cbn [fst] in Hflag.
  rewrite Hflag. cbn [negb andb].
  pose proof (runEdges_keeps_flag (lastIsr env) s1 Hflag) as Hflag'.
  destruct (runEdges (lastIsr env) s1) as [s2 out2] eqn:Hlast.
  cbn [fst] in Hflag'. rewrite Hflag'.
  eexists. split; [reflexivity|].
  cbn [iterations received destination final clearReceived bus
       oneWirePayloadIn].
  repeat split.
  intros Hnone Hnone'. rewrite Hnone in Hisr. rewrite Hnone' in Hlast.
  cbn [runEdges] in Hisr, Hlast.
  injection Hisr as <- _. injection Hlast as <- _. reflexivity.
Qed.

Lemma request_returns_pending_message_witness :
  exists o,
    requestOneWire 9
      (mkEnv 100 [mkPoll [] 100] [])
      (mkState (mkBus 2 3 0 0 (-100) true false) (mkDecoder 0 0 0 0))
    = Some o
    /\ iterations o = O
    /\ destination o = -100.
Proof.
  destruct (request_returns_pending_message 9
              (mkEnv 100 [mkPoll [] 100] [])
              (mkState (mkBus 2 3 0 0 (-100) true false)
                       (mkDecoder 0 0 0 0))
              (mkPoll [] 100) [] eq_refl eq_refl)
    as (o & Hrun & Hiter & _ & _ & Hsame).
  exists o. split; [exact Hrun|]. split; [exact Hiter|].
  apply Hsame; reflexivity.
Defined.

(** ** Setting the payload while frames arrive *)

(** Converting to [int32_t] and back to [uint32_t] keeps the bits. *)
Lemma wrap32_toInt32 (v : Z) : wrap32 (toInt32 v) = wrap32 v.
Proof.
  unfold toInt32.
  pose proof (wrap32_range v) as Hr.
  destruct (wrap32 v <? 2 ^ 31).
  - apply wrap32_small, Hr.
  - unfold wrap32 at 1.
    replace (wrap32 v - 2 ^ 32) with (wrap32 v + (-1) * 2 ^ 32) by ring.
    rewrite Z.mod_add by discriminate.
    apply Z.mod_small, Hr.
Qed.

(** X15. [setPayload] and the handler act on different parts of the state:
    storing a payload before or after an edge is handled leaves the same
    state, so a frame in progress is not disturbed.  What differs is the
    response: an edge handled after the store answers with the new
    payload, if it answers. *)
Theorem setPayload_commutes_with_handler
  (v : Z) (present : Z) (reading : bool) (s : State) :
  fst (setPayload v (fst (handleOneWireInput present reading s)))
  = fst (handleOneWireInput present reading (fst (setPayload v s)))
  /\ (snd (handleOneWireInput present reading (fst (setPayload v s))) = []
      \/ snd (handleOneWireInput present reading (fst (setPayload v s)))
         = sendData (pinTX (bus s)) (wrap32 v) dataWidth)
  /\ (snd (handleOneWireInput present reading s) = []
      <-> snd (handleOneWireInput present reading (fst (setPayload v s)))
          = []).
Proof.
  unfold handleOneWireInput, setPayload, edgeGap.
  cbn [fst bus dec lastEdge ignoreCount].
  destruct (wrap32 (present - lastEdge (dec s)) <? 3 * pulsePeriod);
    [cbn; intuition|].
  destruct (wrap32 (present - lastEdge (dec s)) >? 2 * bitPeriod);
    [cbn; intuition|].
  destruct (negb (ignoreCount (dec s) =? 0)); [cbn; intuition|].
  unfold dispatch, shiftIn, withDecoder.
  cbn [bus dec bitCount tempData ignoreCount lastEdge oneWireListener
       oneWireAddress pinTX oneWirePayloadOut].
  destruct (oneWireListener (bus s)) eqn:Hrole;
    repeat match goal with
           | |- context [if ?c then _ else _] => destruct c
           end;
    cbn [fst snd bus dec pinRX pinTX oneWireAddress oneWirePayloadOut
         oneWirePayloadIn oneWireMessageReceived oneWireListener];
    rewrite ?Hrole, ?wrap32_toInt32;
    repeat split; auto; try discriminate.
Qed.

Lemma setPayload_commutes_with_handler_witness :
  snd (handleOneWireInput 1080 true
         (fst (setPayload 7
                 (mkState (mkBus 2 3 5 (-100) 0 false true)
                          (mkDecoder 1000 3 0 2)))))
  = sendData 3 (wrap32 7) dataWidth.
Proof.
  destruct (setPayload_commutes_with_handler 7 1080 true
              (mkState (mkBus 2 3 5 (-100) 0 false true)
                       (mkDecoder 1000 3 0 2)))
    as (_ & [Hsilent|Hanswer] & _).
  - discriminate Hsilent.
  - exact Hanswer.
Defined.

(** ** The deadline away from the overflow *)

(** X16. When [millis()] at line 147 is at most [2 ^ 32 - 11] the deadline
    does not wrap, and a call that delivers the default has waited for it:
    every clock reading of the loop before the last was below
    [startClock + 10], the last one is at or above it, and the value
    delivered is 0. *)
Theorem default_only_after_ten_ms
  (targetAdd : Z) (env : Env) (s : State) (o : Outcome)
  (Hstart : 0 <= startClock env < 2 ^ 32 - 10)
  (Hrun : requestOneWire targetAdd env s = Some o)
  (Hdefault : received o = false) :
  timeoutMark env = startClock env + 10
  /\ destination o = 0
  /\ (forall j q,
        (j < iterations o)%nat ->
        nth_error (polls env) j = Some q ->
        clock q < startClock env + 10)
  /\ exists p,
      nth_error (polls env) (iterations o) = Some p
      /\ startClock env + 10 <= clock p.
Proof.
  assert (Hmark : timeoutMark env = startClock env + 10)
    by (unfold timeoutMark; apply wrap32_small; lia).
  split; [exact Hmark|]. rewrite <- Hmark.
  unfold requestOneWire in Hrun.
  destruct (waitLoop (timeoutMark env) (polls env) s)
    as [[[s1 out1] n]|] eqn:Hwait; [|discriminate].
  destruct (runEdges (lastIsr env) s1) as [s2 out2] eqn:Hlast.
  injection Hrun as <-.
  cbn [received destination iterations] in *.
  destruct (waitLoop_exit _ _ _ _ _ _ Hwait) as [Hbelow (p & Hnth & Hstop)].
  rewrite Hdefault.
  split; [reflexivity|]. split; [exact Hbelow|].
  exists p. split; [exact Hnth|].
  destruct Hstop as [Hset|Hclk]; [|exact Hclk].
  pose proof (runEdges_keeps_flag (lastIsr env) s1 Hset) as Hkept.
  rewrite Hlast in Hkept. cbn [fst] in Hkept. congruence.
Qed.

Lemma default_only_after_ten_ms_witness :
  exists p,
    nth_error [mkPoll [] 100; mkPoll [] 105; mkPoll [] 110] 2 = Some p
    /\ 100 + 10 <= clock p.
Proof.
  pose (env := mkEnv 100 [mkPoll [] 100; mkPoll [] 105; mkPoll [] 110] []).
  pose (s := mkState (mkBus 2 3 0 0 0 false false) (mkDecoder 0 0 0 0)).
  assert (Hstart : 0 <= startClock env < 2 ^ 32 - 10)
    by (split; [discriminate|reflexivity]).
  assert (Hrun : requestOneWire 5 env s
                 = Some (mkOutcome 0 false s
                           ([NoInterrupts; DigitalWrite 3 HIGH;
                             DelayMicroseconds pulsePeriod]
                            ++ sendData 3 5 addressWidth
                            ++ [DigitalWrite 13 HIGH])
                           2))
    by reflexivity.
  destruct (default_only_after_ten_ms 5 env s _ Hstart Hrun eq_refl)
    as (_ & _ & _ & Hlast).
  exact Hlast.
Defined.
